(** * Trail Guide Agent: provisioner and interactive chat client

    A shallow embedding of the two entry points of the repository,

    - [src/agents/trail_guide_agent/trail_guide_agent.py] (the provisioner),
    - [src/tests/interact_with_agent.py] (the interactive chat client),

    and the properties of their configuration loading, model resolution
    and chat loop.

    Python values are modelled as the code has them: a [str] is the
    [string] of its UTF-8 encoding, a value that may be [None] is an
    [option string],
    [os.environ] is a finite map from names to strings, a list is a [list].
    The external collaborators ([load_dotenv], the agent service, the
    chat-completion endpoint, the terminal) are not part of the repository;
    their behaviour is a parameter of the model, and every theorem holds
    for all behaviours unless it says otherwise. *)

From Stdlib Require Import ZArith Ascii String List Bool Lia.
From stdpp Require Import base option list strings gmap.
Import ListNotations.

Local Open Scope string_scope.
Local Open Scope list_scope.

(** ** The fragment of Python the two scripts use

    A [str] is represented by its UTF-8 encoding, a [string] of bytes. *)

Module Py.

(** The line feed, written [\n] in the source. *)
Definition nl : string := String "010"%char EmptyString.

(** Truth value of a [str]: only the empty string is false. *)
Definition str_truthy (s : string) : bool :=
  match s with
  | EmptyString => false
  | String _ _ => true
  end.

(** Truth value of a value that is [None] or a [str]. *)
Definition truthy (v : option string) : bool :=
  match v with
  | None => false
  | Some s => str_truthy s
  end.

(** [a or b]: [a] when it is true, [b] otherwise. A chain
    [a or b or c or d] evaluates its operands from the left and yields the
    first true one, or the last: it is [py_or a (py_or b (py_or c d))]. *)
Definition py_or (a b : option string) : option string :=
  if truthy a then a else b.

(** [x or ""] for [x] that is [None] or a [str]: always a [str]. *)
Definition or_empty (a : option string) : string :=
  match py_or a (Some "") with
  | Some s => s
  | None => ""
  end.

(** What an f-string writes for a value that is [None] or a [str]. *)
Definition format (v : option string) : string :=
  match v with
  | None => "None"
  | Some s => s
  end.

(** [c.lower()] on the ASCII range; other bytes are left alone. The scripts
    lower a line only to look it up among the exit words, and on that test
    the two agree: no character outside the ASCII range has a lower case
    made of the letters of an exit word. *)
Definition lower_char (c : ascii) : ascii :=
  let n := nat_of_ascii c in
  if ((65 <=? n)%nat && (n <=? 90)%nat)%bool then ascii_of_nat (n + 32) else c.

(** [s.lower()]. *)
Fixpoint lower (s : string) : string :=
  match s with
  | EmptyString => EmptyString
  | String c s' => String (lower_char c) (lower s')
  end.

(** [x in l] for a list of strings. *)
Definition member (x : string) (l : list string) : bool :=
  existsb (String.eqb x) l.

(** The string of the given bytes. *)
Definition utf8 (bytes : list nat) : string :=
  string_of_list_ascii (map ascii_of_nat bytes).

(** The characters [str.isspace] accepts, which are the ones [str.strip]
    removes, each by its encoding: U+0009 to U+000D, U+001C to U+001F,
    U+0020, U+0085, U+00A0, U+1680, U+2000 to U+200A, U+2028, U+2029,
    U+202F, U+205F and U+3000. *)
Definition whitespace : list string :=
  map utf8
    [[9]; [10]; [11]; [12]; [13]; [28]; [29]; [30]; [31]; [32];
     [194; 133]; [194; 160]; [225; 154; 128];
     [226; 128; 128]; [226; 128; 129]; [226; 128; 130]; [226; 128; 131];
     [226; 128; 132]; [226; 128; 133]; [226; 128; 134]; [226; 128; 135];
     [226; 128; 136]; [226; 128; 137]; [226; 128; 138];
     [226; 128; 168]; [226; 128; 169]; [226; 128; 175]; [226; 129; 159];
     [227; 128; 128]].

(** [w.isspace()] for the encoding [w] of one character. *)
Definition isspace (w : string) : bool := member w whitespace.

(** [s.lstrip()]: the whitespace characters at the front, of one, two or
    three bytes each, are removed. *)
Fixpoint lstrip (s : string) : string :=
  match s with
  | EmptyString => EmptyString
  | String c1 s1 =>
      if isspace (String c1 EmptyString) then lstrip s1
      else
        match s1 with
        | EmptyString => s
        | String c2 s2 =>
            if isspace (String c1 (String c2 EmptyString)) then lstrip s2
            else
              match s2 with
              | EmptyString => s
              | String c3 s3 =>
                  if isspace (String c1 (String c2 (String c3 EmptyString)))
                  then lstrip s3
                  else s
              end
        end
  end.

(** [s] holds whitespace only: nothing is left of it once stripped. *)
Definition all_space (s : string) : bool :=
  match lstrip s with
  | EmptyString => true
  | String _ _ => false
  end.

(** [s.rstrip()]: [s] up to the point from which only whitespace
    follows. *)
Fixpoint rstrip (s : string) : string :=
  match s with
  | EmptyString => EmptyString
  | String c s' => if all_space s then EmptyString else String c (rstrip s')
  end.

(** [s.strip()]: whitespace removed at both ends. *)
Definition strip (s : string) : string := rstrip (lstrip s).

(** [needle in hay] for strings: [needle] occurs in [hay]. *)
Fixpoint contains (needle hay : string) : bool :=
  String.prefix needle hay ||
  match hay with
  | EmptyString => false
  | String _ hay' => contains needle hay'
  end.

(** [sep.join(l)]. *)
Fixpoint join (sep : string) (l : list string) : string :=
  match l with
  | [] => ""
  | [x] => x
  | x :: rest => x +:+ sep +:+ join sep rest
  end.

(** [c * n] for a one-character string. *)
Fixpoint repeat_char (c : ascii) (n : nat) : string :=
  match n with
  | O => EmptyString
  | S n' => String c (repeat_char c n')
  end.

(** The byte [c] is the first of the encoding of a whitespace character. *)
Definition leads (c : ascii) : bool :=
  existsb
    (fun w => match w with
              | String c' _ => Ascii.eqb c c'
              | EmptyString => false
              end)
    whitespace.

(** No byte of [s] begins a whitespace character. *)
Fixpoint plain (s : string) : bool :=
  match s with
  | EmptyString => true
  | String c s' => negb (leads c) && plain s'
  end.

(** [s] is made of whitespace characters only. *)
Inductive Blank : string -> Prop :=
| Blank_nil : Blank EmptyString
| Blank_cons (w s : string) : In w whitespace -> Blank s -> Blank (w +:+ s).

(** [s] begins, respectively ends, with a whitespace character. *)
Definition starts_with_space (s : string) : Prop :=
  exists w rest, In w whitespace /\ s = w +:+ rest.

Definition ends_with_space (s : string) : Prop :=
  exists init w, In w whitespace /\ s = init +:+ w.

(** The substring relation [contains] decides. *)
Definition occurs_in (needle hay : string) : Prop :=
  exists pre post, hay = pre +:+ needle +:+ post.

End Py.

(** ** Exceptions, the environment and the remote calls *)

Module Sys.

(** The exception classes the two scripts tell apart. [KeyboardInterrupt]
    derives from [BaseException] only; the other three derive from
    [Exception]. [OtherException] stands for every other subclass of
    [Exception] (eg. [OSError], [UnicodeError], [EOFError], [IndexError],
    the errors of the service clients). *)
Inductive exn_class :=
| KeyboardInterrupt
| UnicodeDecodeError
| RuntimeError
| OtherException.

(** An exception: its class and [str(e)]. *)
Record exception := Exc { cls : exn_class; text : string }.

(** [isinstance(e, KeyboardInterrupt)], the test of
    [except KeyboardInterrupt]. *)
Definition is_KeyboardInterrupt (e : exception) : bool :=
  match cls e with
  | KeyboardInterrupt => true
  | _ => false
  end.

(** [isinstance(e, Exception)], the test of [except Exception]. *)
Definition is_Exception (e : exception) : bool :=
  match cls e with
  | KeyboardInterrupt => false
  | _ => true
  end.

(** [isinstance(e, UnicodeDecodeError)], the test of
    [except UnicodeDecodeError]. *)
Definition is_UnicodeDecodeError (e : exception) : bool :=
  match cls e with
  | UnicodeDecodeError => true
  | _ => false
  end.

(** [os.environ]. *)
Abbreviation environ := (gmap string string).

(** [os.getenv(name)]: [None] when the variable is not set. *)
Definition getenv (env : environ) (name : string) : option string :=
  env !! name.

(** [os.getenv(name, fallback)]: the fallback only when the variable is not
    set (a variable set to the empty string yields the empty string). *)
Definition getenv_default (env : environ) (name fallback : string) : string :=
  match env !! name with
  | Some v => v
  | None => fallback
  end.

(** One entry of the transcript, a dict with the keys [role] and [content]. *)
Record message := Message { role : string; content : option string }.

(** The calls the scripts make to the remote services. *)
Inductive remote_call :=
| CreateVersion (agent_name : string) (model : string) (instructions : string)
| GetAgent (agent_name : string)
| ChatCompletion (model : option string) (messages : list message).

(** How a script has ended, if it has. *)
Inductive termination :=
| Exit (code : Z)
| Uncaught (e : exception)
| AwaitingInput.

(** The exit status of the process, when it ends with one. An uncaught
    exception of class [Exception] gives 1. An uncaught [KeyboardInterrupt]
    gives none: the interpreter ends the process by the signal SIGINT. A
    script blocked at the prompt has not ended. *)
Definition exit_status (t : termination) : option Z :=
  match t with
  | Exit code => Some code
  | Uncaught e => if is_Exception e then Some 1%Z else None
  | AwaitingInput => None
  end.

(** [os.environ[name]] of a variable that is not set. *)
Definition KeyError (name : string) : exception :=
  Exc OtherException ("'" +:+ name +:+ "'").

(** What [print(x)] writes. *)
Definition print_line (x : string) : string := x +:+ Py.nl.

End Sys.

(** ** The configuration loader, shared by the two entry points

    [load_env_with_fallbacks] and the check of the required variables are
    the same text in both files. *)

Module Config.
Import Sys.

Definition Path := string.

(** One call of [load_dotenv]: it returns, with the file's variables merged
    into the environment, or it raises. *)
Inductive load_outcome :=
| Loaded (env' : environ)
| LoadRaises (ex : exception).

(** [load_dotenv(env_path)] when the encoding is [None],
    [load_dotenv(env_path, encoding=encoding)] otherwise. *)
Definition dotenv := Path -> option string -> environ -> load_outcome.

(** The attempt of [load_dotenv] with [encoding] raises a decode error,
    the one exception [load_env_with_fallbacks] catches. *)
Definition decode_error (load_dotenv : dotenv) (env_path : Path)
    (env : environ) (encoding : option string) : Prop :=
  exists ex, load_dotenv env_path encoding env = LoadRaises ex
             /\ cls ex = UnicodeDecodeError.

Definition encodings : list (option string) :=
  [None; Some "utf-8-sig"; Some "utf-16"; Some "utf-16-le"; Some "utf-16-be"].

(** The result of a piece of the start-up code: it falls through with the
    environment, or raises [e], chained ([raise ... from]) to [cause]. *)
Inductive outcome :=
| Returned (env' : environ)
| Raised (e : exception) (cause : option exception).

Definition unreadable (env_path : Path) : exception :=
  Exc RuntimeError
    ("Unable to read .env file at " +:+ env_path +:+ ". Please save it as UTF-8.").

Definition missing_required (missing : list string) (env_file : Path) : exception :=
  Exc RuntimeError
    ("Missing required environment variable(s): " +:+ Py.join ", " missing +:+ ". "
     +:+ "Expected .env at: " +:+ env_file).

(** [[name for name in required_vars if not os.getenv(name)]]. *)
Definition missing_vars (required_vars : list string) (env : environ) : list string :=
  List.filter (fun name => negb (Py.truthy (getenv env name))) required_vars.

Section Loader.
Variable load_dotenv : dotenv.

(** The [for] loop of [load_env_with_fallbacks] over the encodings left,
    with [last_error] as the source keeps it. The second component lists
    the encodings [load_dotenv] has been called with, in order. *)
Fixpoint for_encodings (env_path : Path) (encs : list (option string))
    (last_error : option exception) (env : environ)
    : outcome * list (option string) :=
  match encs with
  | [] => (Raised (unreadable env_path) last_error, [])
  | encoding :: rest =>
      match load_dotenv env_path encoding env with
      | Loaded env' => (Returned env', [encoding])
      | LoadRaises ex =>
          if is_UnicodeDecodeError ex then
            let (r, tried) := for_encodings env_path rest (Some ex) env in
            (r, encoding :: tried)
          else (Raised ex None, [encoding])
      end
  end.

Definition load_env_with_fallbacks (env_path : Path) (env : environ)
    : outcome * list (option string) :=
  for_encodings env_path encodings None env.

(** The module-level code that follows the loader in both files:
    [load_env_with_fallbacks(env_file)], then the check of [required_vars]. *)
Definition configure (env_file : Path) (required_vars : list string)
    (env : environ) : outcome :=
  match fst (load_env_with_fallbacks env_file env) with
  | Returned env' =>
      match missing_vars required_vars env' with
      | [] => Returned env'
      | missing => Raised (missing_required missing env_file) None
      end
  | Raised e cause => Raised e cause
  end.

End Loader.
End Config.

(** ** The provisioner, [trail_guide_agent.py] *)

Module Provisioner.
Import Sys Config.

Definition required_vars : list string :=
  ["AZURE_AI_PROJECT_ENDPOINT"; "AGENT_NAME"].

(** [open(prompt_file, 'r')] and [f.read()]. *)
Inductive read_outcome :=
| Content (data : string)
| ReadRaises (ex : exception).

(** The agent version the service answers [create_version] with. *)
Record agent_version := AgentVersion { id : string; name : string; version : string }.

Inductive create_outcome :=
| Created (agent : agent_version)
| CreateRaises (ex : exception).

(** A run of the script: how it ended, what it printed, what it called. *)
Record run := Run {
  ended : termination;
  stdout : list string;
  calls : list remote_call
}.

Definition crash (ex : exception) : run :=
  {| ended := Uncaught ex; stdout := []; calls := [] |}.

Definition created_line (agent : agent_version) : string :=
  "Agent created (id: " +:+ id agent +:+ ", name: " +:+ name agent
  +:+ ", version: " +:+ version agent +:+ ")".

Section Script.
Variable load_dotenv : dotenv.
Variable env_file : Path.
Variable read_prompt : read_outcome.
Variable create_version : string -> string -> string -> create_outcome.

(** The script, from its first line to its last. *)
Definition main (env : environ) : run :=
  match configure load_dotenv env_file required_vars env with
  | Raised e _ => crash e
  | Returned env' =>
      match read_prompt with
      | ReadRaises ex => crash ex
      | Content data =>
          let instructions := Py.strip data in
          match env' !! "AZURE_AI_PROJECT_ENDPOINT" with
          | None => crash (KeyError "AZURE_AI_PROJECT_ENDPOINT")
          | Some endpoint =>
              match env' !! "AGENT_NAME" with
              | None => crash (KeyError "AGENT_NAME")
              | Some agent_name =>
                  let model := getenv_default env' "MODEL_NAME" "gpt-4.1" in
                  let call := CreateVersion agent_name model instructions in
                  match create_version agent_name model instructions with
                  | CreateRaises ex =>
                      {| ended := Uncaught ex; stdout := []; calls := [call] |}
                  | Created agent =>
                      {| ended := Exit 0;
                         stdout := [print_line (created_line agent)];
                         calls := [call] |}
                  end
              end
          end
      end
  end.

End Script.
End Provisioner.

(** ** The interactive chat client, [interact_with_agent.py] *)

Module ChatClient.
Import Sys Config.

Definition required_vars : list string :=
  ["AZURE_AI_PROJECT_ENDPOINT"; "AZURE_OPENAI_ENDPOINT"; "AGENT_NAME"].

(** [latest_version.definition]: the fields the client reads. *)
Record definition := Definition_ { model : option string; instructions : option string }.

(** [project_client.agents.get(agent_name=...)]. *)
Inductive get_outcome :=
| Found (version : string) (d : definition)
| GetRaises (ex : exception).

(** [input("You: ")]: a line, or an exception (an interrupt, end of file). *)
Inductive input_outcome :=
| Line (s : string)
| InputRaises (ex : exception).

(** [chat_client.chat.completions.create(...)]: a response, given by the
    [message.content] of each of its choices, or an exception. *)
Inductive chat_outcome :=
| Response (choices : list (option string))
| ChatRaises (ex : exception).

(** What the terminal and the chat endpoint do in one iteration of the loop.
    [answered] is consulted only if the iteration makes the call. *)
Record turn := Turn { typed : input_outcome; answered : chat_outcome }.

(** The state of a session: the transcript [messages], the text written to
    the terminal, the remote calls made, and whether [project_client] has
    been closed. A [ChatCompletion] call records the transcript as it is
    when the call is made (the call is given the list itself). *)
Record session := Session {
  messages : list message;
  stdout : list string;
  calls : list remote_call;
  closed : bool
}.

Definition write (chunk : string) (s : session) : session :=
  {| messages := messages s; stdout := stdout s ++ [chunk];
     calls := calls s; closed := closed s |}.

Definition print (x : string) (s : session) : session :=
  write (print_line x) s.

Definition append (m : message) (s : session) : session :=
  {| messages := messages s ++ [m]; stdout := stdout s;
     calls := calls s; closed := closed s |}.

Definition call (c : remote_call) (s : session) : session :=
  {| messages := messages s; stdout := stdout s;
     calls := calls s ++ [c]; closed := closed s |}.

Definition close (s : session) : session :=
  {| messages := messages s; stdout := stdout s;
     calls := calls s; closed := true |}.

(** Lines 60-65. *)
Definition model_name (env : environ) (d : definition) : option string :=
  Py.py_or (getenv env "MODEL_DEPLOYMENT")
    (Py.py_or (getenv env "AZURE_OPENAI_DEPLOYMENT")
       (Py.py_or (getenv env "MODEL_NAME") (model d))).

Definition exit_words : list string := ["exit"; "quit"; "q"].

Definition prompt : string := "You: ".

Definition farewell : string := Py.nl +:+ "Ending session. Goodbye!".

Definition interrupted : string := Py.nl +:+ Py.nl +:+ "Session interrupted. Goodbye!".

(** [response.choices[0]] of a response without choices. *)
Definition IndexError : exception :=
  Exc OtherException "list index out of range".

(** How one iteration of [while True] ends. *)
Inductive flow :=
| Continue (s : session)
| Break (s : session)
| Throw (ex : exception) (s : session).

(** The body of the loop, lines 92-110. *)
Definition loop_body (requested : option string) (t : turn) (s : session) : flow :=
  let s := write prompt s in
  match typed t with
  | InputRaises ex => Throw ex s
  | Line l =>
      let user_input := Py.strip l in
      if negb (Py.str_truthy user_input) then Continue s
      else if Py.member (Py.lower user_input) exit_words then
        Break (print farewell s)
      else
        let s := append (Message "user" (Some user_input)) s in
        let s := call (ChatCompletion requested (messages s)) s in
        match answered t with
        | ChatRaises ex => Throw ex s
        | Response [] => Throw IndexError s
        | Response (reply :: _) =>
            let assistant_reply := Py.or_empty reply in
            let s := append (Message "assistant" (Some assistant_reply)) s in
            Continue (print (Py.nl +:+ "Agent: " +:+ assistant_reply +:+ Py.nl) s)
        end
  end.

(** How the loop ends on a finite script of turns: it is left blocked in
    [input] when the script runs out. *)
Inductive loop_end :=
| Blocked (s : session)
| Broke (s : session)
| Threw (ex : exception) (s : session).

Fixpoint while_true (requested : option string) (script : list turn)
    (s : session) : loop_end :=
  match script with
  | [] => Blocked (write prompt s)
  | t :: rest =>
      match loop_body requested t s with
      | Continue s' => while_true requested rest s'
      | Break s' => Broke s'
      | Throw ex s' => Threw ex s'
      end
  end.

(** A session that has come to rest. *)
Record rest := Rest { ended : termination; final : session }.

Definition not_found_block (requested : option string) (s : session) : session :=
  let s := print (Py.nl +:+ "Error: Model deployment not found.") s in
  let s := print ("Requested model/deployment: " +:+ Py.format requested) s in
  let s := print "Target endpoint: AZURE_OPENAI_ENDPOINT" s in
  let s := print (Py.nl +:+ "Fix:") s in
  let s := print "1) Deploy a chat model in your AI Services account." s in
  let s := print "2) Set MODEL_DEPLOYMENT in .env to that deployment name." s in
  print "3) Re-run this test script." s.

(** The handler of [except Exception as e], lines 115-127, up to
    [sys.exit(1)]. *)
Definition on_exception (requested : option string) (e : exception)
    (s : session) : session :=
  let error_text := text e in
  if Py.contains "DeploymentNotFound" error_text
     || Py.contains "Error code: 404" error_text
  then not_found_block requested s
  else print (Py.nl +:+ "Error: " +:+ text e) s.

(** The [try] statement, lines 89-129: the loop, its two handlers in their
    order and the [finally] clause, which closes the client on every way
    out. Leaving the function normally ends the script with status 0;
    [sys.exit(1)] ends it with status 1. *)
Definition chat_loop (requested : option string) (script : list turn)
    (s : session) : rest :=
  match while_true requested script s with
  | Blocked s' => {| ended := AwaitingInput; final := s' |}
  | Broke s' => {| ended := Exit 0; final := close s' |}
  | Threw ex s' =>
      if is_KeyboardInterrupt ex then
        {| ended := Exit 0; final := close (print interrupted s') |}
      else if is_Exception ex then
        {| ended := Exit 1; final := close (on_exception requested ex s') |}
      else {| ended := Uncaught ex; final := close s' |}
  end.

Definition fresh : session :=
  {| messages := []; stdout := []; calls := []; closed := false |}.

Definition rule : string := Py.repeat_char "=" 60.

Definition banner (agent_name version : string) (requested : option string)
    (s : session) : session :=
  let s := print (Py.nl +:+ rule) s in
  let s := print "Trail Guide Agent - Interactive Chat" s in
  let s := print ("Agent: " +:+ agent_name +:+ " (version: " +:+ version +:+ ")") s in
  let s := print ("Model: " +:+ Py.format requested) s in
  let s := print rule s in
  let s := print (Py.nl +:+ "Type your questions or requests. Type 'exit' or 'quit' to end the session." +:+ Py.nl) s in
  print ("Started conversation." +:+ Py.nl) s.

(** Lines 78-87: the transcript is seeded with the system message and the
    banner is printed. *)
Definition opening (agent_name version : string) (d : definition)
    (requested : option string) (s : session) : session :=
  let s := append (Message "system" (instructions d)) s in
  banner agent_name version requested s.

Section Script.
Variable load_dotenv : dotenv.
Variable env_file : Path.
Variable get_agent : string -> get_outcome.
Variable script : list turn.

(** [interact_with_agent()], run in the environment the start-up code left. *)
Definition interact_with_agent (env : environ) : rest :=
  match env !! "AZURE_AI_PROJECT_ENDPOINT" with
  | None => {| ended := Uncaught (KeyError "AZURE_AI_PROJECT_ENDPOINT"); final := fresh |}
  | Some endpoint =>
      let agent_name := getenv_default env "AGENT_NAME" "trail-guide" in
      let s := call (GetAgent agent_name) fresh in
      match get_agent agent_name with
      | GetRaises ex => {| ended := Uncaught ex; final := s |}
      | Found version d =>
          let requested := model_name env d in
          match env !! "AZURE_OPENAI_ENDPOINT" with
          | None => {| ended := Uncaught (KeyError "AZURE_OPENAI_ENDPOINT"); final := s |}
          | Some azure_endpoint =>
              chat_loop requested script (opening agent_name version d requested s)
          end
      end
  end.

(** The script, from its first line to its last. *)
Definition main (env : environ) : rest :=
  match configure load_dotenv env_file required_vars env with
  | Raised e _ => {| ended := Uncaught e; final := fresh |}
  | Returned env' => interact_with_agent env'
  end.

End Script.
End ChatClient.

(** ** The two entry points side by side *)

Module EntryPoint.
Import Sys Config.

Inductive entry_point :=
| provisioner
| chat_client.

Definition required_vars (ep : entry_point) : list string :=
  match ep with
  | provisioner => Provisioner.required_vars
  | chat_client => ChatClient.required_vars
  end.

(** Everything outside the repository a run depends on. *)
Record world := World {
  load_dotenv : dotenv;
  env_file : Path;
  read_prompt : Provisioner.read_outcome;
  create_version : string -> string -> string -> Provisioner.create_outcome;
  get_agent : string -> ChatClient.get_outcome;
  script : list ChatClient.turn
}.

(** A run of an entry point: how it ended and the remote calls it made. *)
Definition launch (ep : entry_point) (w : world) (env : environ)
    : termination * list remote_call :=
  match ep with
  | provisioner =>
      let r := Provisioner.main (load_dotenv w) (env_file w) (read_prompt w)
                 (create_version w) env in
      (Provisioner.ended r, Provisioner.calls r)
  | chat_client =>
      let r := ChatClient.main (load_dotenv w) (env_file w) (get_agent w)
                 (script w) env in
      (ChatClient.ended r, ChatClient.calls (ChatClient.final r))
  end.

(** A variable is set when [os.getenv] gives a non-empty string. *)
Definition is_set (env : environ) (name : string) : Prop :=
  exists v, env !! name = Some v /\ v <> "".

(** The session of a loop that has ended or is blocked. *)
Definition state_of (e : ChatClient.loop_end) : ChatClient.session :=
  match e with
  | ChatClient.Blocked s => s
  | ChatClient.Broke s => s
  | ChatClient.Threw _ s => s
  end.

(** The session an iteration of the loop leaves. *)
Definition flow_state (f : ChatClient.flow) : ChatClient.session :=
  match f with
  | ChatClient.Continue s => s
  | ChatClient.Break s => s
  | ChatClient.Throw _ s => s
  end.


(** The block the client prints when the deployment is not found. *)
Definition remediation (requested : option string) : list string :=
  map print_line
    [Py.nl +:+ "Error: Model deployment not found.";
     "Requested model/deployment: " +:+ Py.format requested;
     "Target endpoint: AZURE_OPENAI_ENDPOINT";
     Py.nl +:+ "Fix:";
     "1) Deploy a chat model in your AI Services account.";
     "2) Set MODEL_DEPLOYMENT in .env to that deployment name.";
     "3) Re-run this test script."].

End EntryPoint.

(** ** Concrete files, services and sessions, used to exercise the model *)

Module Scenario.
Import Sys Config.

Definition encoding_is (encoding : option string) (name : string) : bool :=
  match encoding with
  | Some e => String.eqb e name
  | None => false
  end.

Definition invalid_start_byte (byte : string) : exception :=
  Exc UnicodeDecodeError
    ("'utf-8' codec can't decode byte " +:+ byte
     +:+ " in position 0: invalid start byte").

Definition truncated_data (codec : string) : exception :=
  Exc UnicodeDecodeError
    ("'" +:+ codec
     +:+ "' codec can't decode byte 0xff in position 0: truncated data").

(** [UnicodeError], the parent class of [UnicodeDecodeError]: what the
    [utf-16] codec raises on data without a byte-order mark. *)
Definition no_byte_order_mark : exception :=
  Exc OtherException "UTF-16 stream does not start with BOM".

(** A file that reads in every encoding; its variables do not override the
    ones already set. *)
Definition readable (vars : environ) : dotenv :=
  fun _ _ env => Loaded (env ∪ vars).

(** A file saved as UTF-16 with a byte-order mark, 0xff 0xfe. *)
Definition utf16_file (vars : environ) : dotenv :=
  fun _ encoding env =>
    if encoding_is encoding "utf-16" then Loaded (env ∪ vars)
    else if encoding_is encoding "utf-16-le" || encoding_is encoding "utf-16-be"
    then Loaded env
    else LoadRaises (invalid_start_byte "0xff").

(** The one-byte file 0xff: no encoding of the list decodes it. *)
Definition undecodable : dotenv :=
  fun _ encoding _ =>
    match encoding with
    | None => LoadRaises (invalid_start_byte "0xff")
    | Some e =>
        if String.eqb e "utf-8-sig" then LoadRaises (invalid_start_byte "0xff")
        else if String.eqb e "utf-16-be" then LoadRaises (truncated_data e)
        else LoadRaises (truncated_data "utf-16-le")
    end.

(** The four-byte file 0x80 0x61 0x62 0x63: not UTF-8, no byte-order mark,
    an even number of bytes. Read as utf-16-le or utf-16-be it decodes, to
    text that sets no variable. *)
Definition bomless : dotenv :=
  fun _ encoding env =>
    match encoding with
    | None => LoadRaises (invalid_start_byte "0x80")
    | Some e =>
        if String.eqb e "utf-8-sig" then LoadRaises (invalid_start_byte "0x80")
        else if String.eqb e "utf-16" then LoadRaises no_byte_order_mark
        else Loaded env
    end.

Definition repo_env : Path := "/repo/.env".

Definition complete : environ :=
  {[ "AZURE_AI_PROJECT_ENDPOINT" := "https://project.example";
     "AZURE_OPENAI_ENDPOINT" := "https://openai.example";
     "AGENT_NAME" := "trail-guide" ]}.

(** [AGENT_NAME] left out, [AZURE_AI_PROJECT_ENDPOINT] left empty. *)
Definition incomplete : environ :=
  {[ "AZURE_AI_PROJECT_ENDPOINT" := "";
     "AZURE_OPENAI_ENDPOINT" := "https://openai.example" ]}.

Definition overrides : environ :=
  {[ "MODEL_DEPLOYMENT" := "";
     "AZURE_OPENAI_DEPLOYMENT" := "gpt-4o-eastus";
     "MODEL_NAME" := "gpt-4o" ]}.

Definition trail_guide : ChatClient.definition :=
  {| ChatClient.model := Some "gpt-4.1";
     ChatClient.instructions := Some "You are a trail guide." |}.

Definition service (agent_name : string) : ChatClient.get_outcome :=
  ChatClient.Found "2" trail_guide.

Definition accepting (agent_name model instructions : string)
    : Provisioner.create_outcome :=
  Provisioner.Created
    {| Provisioner.id := agent_name +:+ ":1"; Provisioner.name := agent_name;
       Provisioner.version := "1" |}.

Definition not_found : exception :=
  Exc OtherException "Error code: 404 - {'error': {'code': 'DeploymentNotFound'}}".

Definition connection_error : exception :=
  Exc OtherException "Connection error.".


Definition silent : ChatClient.chat_outcome := ChatClient.Response [None].

Definition says (reply : string) : ChatClient.chat_outcome :=
  ChatClient.Response [Some reply].

Definition started : ChatClient.session :=
  ChatClient.opening "trail-guide" "2" trail_guide (Some "gpt-4.1")
    (ChatClient.call (GetAgent "trail-guide") ChatClient.fresh).

Definition a_world (load : dotenv) (script : list ChatClient.turn)
    : EntryPoint.world :=
  {| EntryPoint.load_dotenv := load;
     EntryPoint.env_file := repo_env;
     EntryPoint.read_prompt := Provisioner.Content "  Guide hikers safely.  ";
     EntryPoint.create_version := accepting;
     EntryPoint.get_agent := service;
     EntryPoint.script := script |}.

(** U+3000, the ideographic space, and U+00A0, the no-break space. *)
Definition ideographic_space : string := Py.utf8 [227; 128; 128].

Definition no_break_space : string := Py.utf8 [194; 160].

Definition quota_exceeded : exception :=
  Exc OtherException "Error code: 429 - quota exceeded".

Definition refusing (agent_name model instructions : string)
    : Provisioner.create_outcome :=
  Provisioner.CreateRaises quota_exceeded.

Definition unavailable (agent_name : string) : ChatClient.get_outcome :=
  ChatClient.GetRaises (Exc OtherException "(not_found) agent does not exist").

End Scenario.

(** ** The contracts as the specification words them *)

Module Stated.
Import Sys Config EntryPoint.

(** "For every normal (non-empty, non-exit) input line, one loop iteration
    appends exactly two entries to the transcript, first a user-role
    message then an assistant-role message, and makes exactly one
    chat-completion call with the full transcript as context." *)
Definition normal_line_appends_two_entries (requested : option string)
    (t : ChatClient.turn) (s : ChatClient.session) : Prop :=
  forall l,
    ChatClient.typed t = ChatClient.Line l ->
    Py.strip l <> "" ->
    ~ In (Py.lower (Py.strip l)) ChatClient.exit_words ->
    exists said,
      let s' := flow_state (ChatClient.loop_body requested t s) in
      let user_entry := Message "user" (Some (Py.strip l)) in
      ChatClient.messages s'
      = ChatClient.messages s ++ [user_entry; Message "assistant" (Some said)]
      /\ ChatClient.calls s'
         = ChatClient.calls s
           ++ [ChatCompletion requested (ChatClient.messages s ++ [user_entry])].

End Stated.

(** ** The shape of a transcript *)

Module Transcript.
Import Sys.

(** An entry the loop appends for the user: a line as it is once stripped,
    not empty and not an exit word. *)
Definition user_message (m : message) : bool :=
  String.eqb (role m) "user" &&
  match content m with
  | Some u =>
      Py.str_truthy u && String.eqb (Py.strip u) u
      && negb (Py.member (Py.lower u) ChatClient.exit_words)
  | None => false
  end.

(** An entry the loop appends for the model: its content is a string. *)
Definition assistant_message (m : message) : bool :=
  String.eqb (role m) "assistant" &&
  match content m with
  | Some _ => true
  | None => false
  end.

(** [l] is a sequence of exchanges, a user entry followed by an assistant
    entry; when [open] is set, the last user entry may be unanswered. *)
Fixpoint exchanges (open : bool) (l : list message) : bool :=
  match l with
  | [] => true
  | [u] => open && user_message u
  | u :: a :: rest => user_message u && assistant_message a && exchanges open rest
  end.

(** The loop was left by an exception. *)
Definition threw (e : ChatClient.loop_end) : bool :=
  match e with
  | ChatClient.Threw _ _ => true
  | _ => false
  end.

(** A chat-completion call for [model] whose context is the transcript
    [before], what the session has added to it since, and the user entry
    the call asks about; that context is an initial part of [final]. *)
Definition asks (model : option string) (before final : list message)
    (c : remote_call) : Prop :=
  exists more u rest,
    c = ChatCompletion model (before ++ more ++ [u])
    /\ user_message u = true
    /\ final = (before ++ more ++ [u]) ++ rest.

End Transcript.

(** * Properties *)

Import Sys Config EntryPoint.

(** ** Strings *)

Lemma append_nil (b : string) : "" +:+ b = b.
Proof. reflexivity. Qed.

Lemma append_cons (x : ascii) (a b : string) :
  String x a +:+ b = String x (a +:+ b).
Proof. reflexivity. Qed.

Ltac push_append := rewrite ?append_cons, ?append_nil.
Ltac push_append_in H := rewrite ?append_cons, ?append_nil in H.

Lemma append_assoc (a b c : string) : (a +:+ b) +:+ c = a +:+ (b +:+ c).
Proof.
  induction a as [|x a IH]; push_append; [reflexivity | now rewrite IH].
Qed.

Lemma append_empty_r (a : string) : a +:+ "" = a.
Proof.
  induction a as [|x a IH]; push_append; [reflexivity | now rewrite IH].
Qed.

Lemma prefix_spec (n h : string) :
  String.prefix n h = true <-> exists post, h = n +:+ post.
Proof.
  revert h. induction n as [|x n IH]; intros h.
  - destruct h; simpl; (split; [intros _; eexists; reflexivity | reflexivity]).
  - destruct h as [|y h]; simpl.
    + split; [discriminate | intros [post H]; discriminate].
    + destruct (Ascii.ascii_dec x y) as [->|Hne].
      * rewrite IH. split; intros [post H]; exists post.
        -- push_append. now rewrite H.
        -- push_append_in H. now inversion H.
      * split; [discriminate |].
        intros [post H]. push_append_in H. inversion H. congruence.
Qed.

Lemma occurs_in_refl (s : string) : Py.occurs_in s s.
Proof. exists "", "". push_append. now rewrite append_empty_r. Qed.

Lemma occurs_in_append_r (x a b : string) :
  Py.occurs_in x b -> Py.occurs_in x (a +:+ b).
Proof.
  intros (pre & post & ->). exists (a +:+ pre), post. now rewrite append_assoc.
Qed.

Lemma occurs_in_append_l (x a b : string) :
  Py.occurs_in x a -> Py.occurs_in x (a +:+ b).
Proof.
  intros (pre & post & ->). exists pre, (post +:+ b).
  now rewrite !append_assoc.
Qed.

Lemma contains_nil (n : string) :
  Py.contains n "" = String.prefix n "" || false.
Proof. reflexivity. Qed.

Lemma contains_cons (n : string) (y : ascii) (h : string) :
  Py.contains n (String y h) = String.prefix n (String y h) || Py.contains n h.
Proof. reflexivity. Qed.

(** [contains] is Python's [in]: it decides whether the needle occurs. *)
Lemma contains_spec (n h : string) :
  Py.contains n h = true <-> Py.occurs_in n h.
Proof.
  induction h as [|y h IH].
  - rewrite contains_nil, orb_false_r, prefix_spec. split.
    + intros [post H]. exists "", post. exact H.
    + intros (pre & post & H). destruct pre; push_append_in H;
        [now exists post | discriminate].
  - rewrite contains_cons, orb_true_iff, prefix_spec, IH. split.
    + intros [[post H] | (pre & post & H)].
      * exists "", post. exact H.
      * exists (String y pre), post. push_append. now rewrite H.
    + intros (pre & post & H). destruct pre as [|z pre]; push_append_in H.
      * left. now exists post.
      * right. inversion H. now exists pre, post.
Qed.

Lemma contains_false (n h : string) :
  Py.contains n h = false <-> ~ Py.occurs_in n h.
Proof.
  rewrite <- contains_spec. destruct (Py.contains n h); split; intros; congruence.
Qed.

(** Every element of a joined list occurs in the result. *)
Lemma occurs_in_join (sep x : string) (l : list string) :
  In x l -> Py.occurs_in x (Py.join sep l).
Proof.
  induction l as [|y l IH]; [intros [] |].
  intros [-> | Hin].
  - destruct l; simpl; [apply occurs_in_refl | apply occurs_in_append_l, occurs_in_refl].
  - destruct l as [|z l]; [destruct Hin |].
    change (Py.join sep (y :: z :: l)) with (y +:+ sep +:+ Py.join sep (z :: l)).
    now apply occurs_in_append_r, occurs_in_append_r, IH.
Qed.

Lemma lower_empty (s : string) : Py.lower s = "" -> s = "".
Proof. destruct s; [reflexivity | discriminate]. Qed.

Lemma member_spec (x : string) (l : list string) :
  Py.member x l = true <-> In x l.
Proof.
  unfold Py.member. rewrite existsb_exists. split.
  - intros (y & Hin & Heq). apply String.eqb_eq in Heq. now subst.
  - intros Hin. exists x. split; [exact Hin | apply String.eqb_refl].
Qed.

Lemma or_empty_spec (reply : option string) :
  Py.or_empty reply = match reply with Some c => c | None => "" end.
Proof. destruct reply as [[|c s]|]; reflexivity. Qed.

Lemma str_truthy_spec (s : string) : Py.str_truthy s = true <-> s <> "".
Proof. destruct s; simpl; split; congruence. Qed.

(** ** Whitespace and stripping *)

Lemma isspace_spec (w : string) : Py.isspace w = true <-> In w Py.whitespace.
Proof. apply member_spec. Qed.

(** A whitespace character takes one, two or three bytes. *)
Lemma whitespace_shape (w : string) :
  In w Py.whitespace ->
  (exists c1, w = String c1 "")
  \/ (exists c1 c2, w = String c1 (String c2 ""))
  \/ (exists c1 c2 c3, w = String c1 (String c2 (String c3 ""))).
Proof.
  intros H. vm_compute in H.
  repeat (destruct H as [<- | H];
          [first [ left; eexists; reflexivity
                 | right; left; do 2 eexists; reflexivity
                 | right; right; do 3 eexists; reflexivity ] |]).
  destruct H.
Qed.

Lemma whitespace_nonempty (w : string) : In w Py.whitespace -> w <> "".
Proof.
  intros H.
  destruct (whitespace_shape w H)
    as [(a & ->) | [(a & b & ->) | (a & b & c & ->)]]; discriminate.
Qed.

Lemma append_eq_empty (a b : string) : a +:+ b = "" -> a = "" /\ b = "".
Proof. destruct a; push_append; [auto | discriminate]. Qed.

Lemma lstrip_cons (c1 : ascii) (s1 : string) :
  Py.lstrip (String c1 s1)
  = if Py.isspace (String c1 "") then Py.lstrip s1
    else match s1 with
         | EmptyString => String c1 s1
         | String c2 s2 =>
             if Py.isspace (String c1 (String c2 "")) then Py.lstrip s2
             else match s2 with
                  | EmptyString => String c1 s1
                  | String c3 s3 =>
                      if Py.isspace (String c1 (String c2 (String c3 "")))
                      then Py.lstrip s3
                      else String c1 s1
                  end
         end.
Proof. destruct s1 as [|c2 [|c3 s3]]; reflexivity. Qed.

Lemma rstrip_cons (c : ascii) (s : string) :
  Py.rstrip (String c s)
  = if Py.all_space (String c s) then "" else String c (Py.rstrip s).
Proof. reflexivity. Qed.

(** A whitespace character at the front is removed, whatever follows. *)
Lemma lstrip_space (w r : string) :
  In w Py.whitespace -> Py.lstrip (w +:+ r) = Py.lstrip r.
Proof.
  intros H. vm_compute in H.
  repeat (destruct H as [<- | H]; [reflexivity |]).
  destruct H.
Qed.

Lemma Blank_lstrip (p : string) : Py.Blank p -> Py.lstrip p = "".
Proof.
  induction 1 as [|w p Hw Hp IH]; [reflexivity |].
  now rewrite lstrip_space.
Qed.

Lemma Blank_app (a b : string) : Py.Blank a -> Py.Blank b -> Py.Blank (a +:+ b).
Proof.
  induction 1 as [|w a Hw Ha IH]; intros Hb; [exact Hb |].
  rewrite append_assoc. constructor; auto.
Qed.

Lemma Blank_ends (p : string) : Py.Blank p -> p = "" \/ Py.ends_with_space p.
Proof.
  induction 1 as [|w p Hw Hp [-> | (init & w' & Hw' & ->)]]; [now left | |];
    right.
  - exists "", w. split; [exact Hw |]. now rewrite append_empty_r.
  - exists (w +:+ init), w'. split; [exact Hw' |]. now rewrite append_assoc.
Qed.

Lemma starts_with_space_inv (c1 : ascii) (s1 : string) :
  Py.starts_with_space (String c1 s1) ->
  Py.isspace (String c1 "") = true
  \/ exists c2 s2,
       s1 = String c2 s2
       /\ (Py.isspace (String c1 (String c2 "")) = true
           \/ exists c3 s3,
                s2 = String c3 s3
                /\ Py.isspace (String c1 (String c2 (String c3 ""))) = true).
Proof.
  intros (w & rest & Hin & Heq).
  pose proof (proj2 (isspace_spec w) Hin) as Hw.
  destruct (whitespace_shape w Hin)
    as [(a & ->) | [(a & b & ->) | (a & b & c & ->)]];
    push_append_in Heq; inversion Heq; subst.
  - now left.
  - right. eauto.
  - right. do 2 eexists. split; [reflexivity |]. right. eauto.
Qed.

Lemma not_starts_with_space_empty : ~ Py.starts_with_space "".
Proof.
  intros (w & rest & Hin & Heq). symmetry in Heq.
  apply append_eq_empty in Heq as [-> _]. now apply whitespace_nonempty in Hin.
Qed.

Lemma length_append (a b : string) :
  String.length (a +:+ b) = String.length a + String.length b.
Proof.
  induction a as [|c a IH]; push_append; simpl; [reflexivity | now rewrite IH].
Qed.

(** [lstrip] removes whitespace, only whitespace, and all of it. *)
Lemma lstrip_spec (s : string) :
  exists pre,
    s = pre +:+ Py.lstrip s /\ Py.Blank pre
    /\ ~ Py.starts_with_space (Py.lstrip s).
Proof.
  remember (String.length s) as n eqn:Hn. revert s Hn.
  induction n as [n IH] using lt_wf_ind. intros s Hn.
  assert (Hrec : forall w r, In w Py.whitespace -> s = w +:+ r ->
            Py.lstrip s = Py.lstrip r ->
            exists pre, s = pre +:+ Py.lstrip s /\ Py.Blank pre
                        /\ ~ Py.starts_with_space (Py.lstrip s)).
  { intros w r Hw Hs Hl.
    destruct (IH (String.length r)) with (s := r) as (pre & Hr & Hb & Hns);
      [| reflexivity |].
    - subst n s. rewrite length_append.
      destruct w; [now apply whitespace_nonempty in Hw | simpl; lia].
    - exists (w +:+ pre). rewrite Hl.
      split; [now rewrite Hs, append_assoc, <- Hr |].
      split; [now constructor | exact Hns]. }
  assert (Hstop : Py.lstrip s = s -> ~ Py.starts_with_space s ->
            exists pre, s = pre +:+ Py.lstrip s /\ Py.Blank pre
                        /\ ~ Py.starts_with_space (Py.lstrip s)).
  { intros Hl Hns. exists "". rewrite Hl. repeat split; [constructor | exact Hns]. }
  destruct s as [|c1 s1].
  { apply Hstop; [reflexivity | apply not_starts_with_space_empty]. }
  pose proof (lstrip_cons c1 s1) as Hl.
  destruct (Py.isspace (String c1 "")) eqn:H1.
  { apply (Hrec (String c1 "") s1); [now apply isspace_spec | reflexivity | exact Hl]. }
  destruct s1 as [|c2 s2].
  { apply Hstop; [exact Hl |]. intros H.
    apply starts_with_space_inv in H as [H | (c & r & H & _)]; congruence. }
  destruct (Py.isspace (String c1 (String c2 ""))) eqn:H2.
  { apply (Hrec (String c1 (String c2 "")) s2);
      [now apply isspace_spec | reflexivity | exact Hl]. }
  destruct s2 as [|c3 s3].
  { apply Hstop; [exact Hl |]. intros H.
    apply starts_with_space_inv in H as [H | (c & r & Heq & [H | (c' & r' & H & _)])];
      [congruence | inversion Heq; congruence | inversion Heq; subst; discriminate]. }
  destruct (Py.isspace (String c1 (String c2 (String c3 "")))) eqn:H3.
  { apply (Hrec (String c1 (String c2 (String c3 ""))) s3);
      [now apply isspace_spec | reflexivity | exact Hl]. }
  apply Hstop; [exact Hl |]. intros H.
  apply starts_with_space_inv in H as [H | (c & r & Heq & [H | (c' & r' & Heq' & H)])];
    [congruence | inversion Heq; congruence | congruence].
Qed.

Lemma all_space_spec (s : string) : Py.all_space s = true <-> Py.Blank s.
Proof.
  unfold Py.all_space. split.
  - destruct (lstrip_spec s) as (pre & Hs & Hb & _).
    destruct (Py.lstrip s); [| discriminate].
    intros _. rewrite Hs, append_empty_r. exact Hb.
  - intros H. now rewrite (Blank_lstrip s H).
Qed.

(** [rstrip] removes whitespace, only whitespace, and all of it. *)
Lemma rstrip_spec (s : string) :
  exists post,
    s = Py.rstrip s +:+ post /\ Py.Blank post
    /\ ~ Py.ends_with_space (Py.rstrip s).
Proof.
  induction s as [|c s (post & Hs & Hpost & Hend)].
  - exists "". repeat split; [constructor |].
    intros (init & w & Hw & Heq). symmetry in Heq.
    apply append_eq_empty in Heq as [_ ->]. now apply whitespace_nonempty in Hw.
  - rewrite rstrip_cons. destruct (Py.all_space (String c s)) eqn:Hall.
    + exists (String c s). split; [reflexivity |].
      split; [now apply all_space_spec |].
      intros (init & w & Hw & Heq). symmetry in Heq.
      apply append_eq_empty in Heq as [_ ->]. now apply whitespace_nonempty in Hw.
    + exists post. split; [push_append; now rewrite <- Hs |].
      split; [exact Hpost |].
      intros (init & w & Hw & Heq). destruct init as [|c' init];
        push_append_in Heq.
      * assert (Hb : Py.Blank (String c s)).
        { rewrite Hs, <- append_cons, Heq. now constructor. }
        apply all_space_spec in Hb. congruence.
      * inversion Heq. apply Hend. now exists init, w.
Qed.

Lemma lstrip_fixed (s : string) : ~ Py.starts_with_space s -> Py.lstrip s = s.
Proof.
  intros Hns. destruct (lstrip_spec s) as (pre & Hs & Hb & _).
  destruct Hb as [|w p Hw Hp]; [exact (eq_sym Hs) |].
  exfalso. apply Hns. exists w, (p +:+ Py.lstrip s).
  split; [exact Hw |]. now rewrite <- append_assoc.
Qed.

Lemma rstrip_fixed (s : string) : ~ Py.ends_with_space s -> Py.rstrip s = s.
Proof.
  intros Hne. destruct (rstrip_spec s) as (post & Hs & Hb & _).
  destruct (Blank_ends post Hb) as [-> | (init & w & Hw & ->)].
  - now rewrite append_empty_r in Hs.
  - exfalso. apply Hne. exists (Py.rstrip s +:+ init), w.
    split; [exact Hw |]. now rewrite append_assoc.
Qed.

Lemma rstrip_starts (s : string) :
  ~ Py.starts_with_space s -> ~ Py.starts_with_space (Py.rstrip s).
Proof.
  intros Hns (w & rest & Hw & Heq).
  destruct (rstrip_spec s) as (post & Hs & _ & _).
  apply Hns. exists w, (rest +:+ post). split; [exact Hw |].
  now rewrite Hs, Heq, append_assoc.
Qed.

(** [strip] removes a run of whitespace characters at each end, and all of
    it: what is left neither begins nor ends with a whitespace character. *)
Lemma strip_spec (s : string) :
  exists pre post,
    s = pre +:+ Py.strip s +:+ post
    /\ Py.Blank pre /\ Py.Blank post
    /\ ~ Py.starts_with_space (Py.strip s)
    /\ ~ Py.ends_with_space (Py.strip s).
Proof.
  destruct (lstrip_spec s) as (pre & Hs & Hpre & Hstart).
  destruct (rstrip_spec (Py.lstrip s)) as (post & Hl & Hpost & Hend).
  exists pre, post. unfold Py.strip. rewrite <- Hl.
  repeat split; [exact Hs | exact Hpre | exact Hpost | | exact Hend].
  now apply rstrip_starts.
Qed.

(** What has been stripped has nothing left to strip. *)
Lemma strip_idempotent (s : string) : Py.strip (Py.strip s) = Py.strip s.
Proof.
  destruct (strip_spec s) as (pre & post & _ & _ & _ & Hstart & Hend).
  unfold Py.strip at 1. rewrite (lstrip_fixed _ Hstart).
  now apply rstrip_fixed.
Qed.

(** A line strips to nothing exactly when it is made of whitespace. *)
Lemma strip_empty (s : string) : Py.strip s = "" <-> Py.Blank s.
Proof.
  split.
  - intros H. destruct (strip_spec s) as (pre & post & Hs & Hpre & Hpost & _).
    rewrite H in Hs. rewrite Hs. now apply Blank_app.
  - intros H. unfold Py.strip. now rewrite (Blank_lstrip s H).
Qed.

Lemma leads_head (c : ascii) (r : string) :
  In (String c r) Py.whitespace -> Py.leads c = true.
Proof.
  intros H. unfold Py.leads. apply existsb_exists.
  exists (String c r). split; [exact H | apply Ascii.eqb_refl].
Qed.

Lemma plain_app (a b : string) :
  Py.plain (a +:+ b) = Py.plain a && Py.plain b.
Proof.
  induction a as [|c a IH]; push_append; [reflexivity |].
  simpl. now rewrite IH, andb_assoc.
Qed.

Lemma plain_no_space (s init w rest : string) :
  Py.plain s = true -> In w Py.whitespace -> s <> init +:+ w +:+ rest.
Proof.
  intros Hp Hw ->. rewrite !plain_app in Hp.
  apply andb_prop in Hp as [_ Hp]. apply andb_prop in Hp as [Hp _].
  destruct w as [|c r]; [now apply whitespace_nonempty in Hw |].
  simpl in Hp. now rewrite (leads_head c r Hw) in Hp.
Qed.

(** Stripping leaves a string without whitespace as it is. *)
Lemma strip_plain (s : string) : Py.plain s = true -> Py.strip s = s.
Proof.
  intros Hp. unfold Py.strip. rewrite lstrip_fixed.
  - apply rstrip_fixed. intros (init & w & Hw & Heq).
    apply (plain_no_space s init w "" Hp Hw). now rewrite append_empty_r.
  - intros (w & rest & Hw & Heq). now apply (plain_no_space s "" w rest Hp Hw).
Qed.

Lemma leads_lower_char (c : ascii) : Py.leads (Py.lower_char c) = Py.leads c.
Proof. destruct c as [[] [] [] [] [] [] [] []]; reflexivity. Qed.

Lemma plain_lower (s : string) : Py.plain (Py.lower s) = Py.plain s.
Proof.
  induction s as [|c s IH]; simpl; [reflexivity |].
  now rewrite leads_lower_char, IH.
Qed.

Lemma truthy_is_set (env : environ) (name : string) :
  Py.truthy (getenv env name) = true <-> is_set env name.
Proof.
  unfold is_set, getenv. destruct (env !! name) as [v|]; simpl.
  - rewrite str_truthy_spec. split.
    + intros H. now exists v.
    + intros (w & Hw & Hne). now inversion Hw; subst.
  - split; [discriminate | intros (w & Hw & _); discriminate].
Qed.

Lemma not_truthy_is_set (env : environ) (name : string) :
  Py.truthy (getenv env name) = false <-> ~ is_set env name.
Proof.
  rewrite <- truthy_is_set.
  destruct (Py.truthy (getenv env name)); split; intros; congruence.
Qed.

(** A variable is not set when it is absent or empty. *)
Lemma not_set_spec (env : environ) (name : string) :
  ~ is_set env name <-> env !! name = None \/ env !! name = Some "".
Proof.
  unfold is_set. destruct (env !! name) as [v|].
  - split.
    + intros H. right. destruct v; [reflexivity |].
      exfalso. apply H. eexists. split; [reflexivity | discriminate].
    + intros [H | H] (w & Hw & Hne); [discriminate |].
      inversion H; inversion Hw; congruence.
  - split; [now left | intros _ (w & Hw & _); discriminate].
Qed.

Lemma py_or_set (env : environ) (name v : string) (b : option string) :
  env !! name = Some v -> v <> "" -> Py.py_or (getenv env name) b = Some v.
Proof.
  intros H Hne. unfold Py.py_or, getenv. rewrite H. simpl.
  apply str_truthy_spec in Hne. now rewrite Hne.
Qed.

Lemma py_or_not_set (env : environ) (name : string) (b : option string) :
  ~ is_set env name -> Py.py_or (getenv env name) b = b.
Proof.
  intros H. apply not_truthy_is_set in H. unfold Py.py_or. now rewrite H.
Qed.

(** ** The chat client's model *)

(** C1. The model the chat client requests is resolved in strict
    precedence: [MODEL_DEPLOYMENT] when it is set to a non-empty value;
    otherwise [AZURE_OPENAI_DEPLOYMENT] when it is; otherwise [MODEL_NAME]
    when it is; otherwise the [model] field of the fetched definition. In
    particular, with the three variables unset the result is the
    definition's model. *)
Theorem model_name_precedence (env : environ) (d : ChatClient.definition) :
  (forall a, env !! "MODEL_DEPLOYMENT" = Some a -> a <> "" ->
     ChatClient.model_name env d = Some a) /\
  (~ is_set env "MODEL_DEPLOYMENT" ->
   forall b, env !! "AZURE_OPENAI_DEPLOYMENT" = Some b -> b <> "" ->
     ChatClient.model_name env d = Some b) /\
  (~ is_set env "MODEL_DEPLOYMENT" ->
   ~ is_set env "AZURE_OPENAI_DEPLOYMENT" ->
   forall c, env !! "MODEL_NAME" = Some c -> c <> "" ->
     ChatClient.model_name env d = Some c) /\
  (~ is_set env "MODEL_DEPLOYMENT" ->
   ~ is_set env "AZURE_OPENAI_DEPLOYMENT" ->
   ~ is_set env "MODEL_NAME" ->
     ChatClient.model_name env d = ChatClient.model d) /\
  (env !! "MODEL_DEPLOYMENT" = None ->
   env !! "AZURE_OPENAI_DEPLOYMENT" = None ->
   env !! "MODEL_NAME" = None ->
     ChatClient.model_name env d = ChatClient.model d).
Proof.
  unfold ChatClient.model_name. repeat split.
  - intros a Ha Hne. now apply py_or_set.
  - intros HA b Hb Hne. rewrite (py_or_not_set _ _ _ HA). now apply py_or_set.
  - intros HA HB c Hc Hne.
    rewrite (py_or_not_set _ _ _ HA), (py_or_not_set _ _ _ HB).
    now apply py_or_set.
  - intros HA HB HC.
    now rewrite (py_or_not_set _ _ _ HA), (py_or_not_set _ _ _ HB),
      (py_or_not_set _ _ _ HC).
  - intros HA HB HC.
    rewrite !py_or_not_set; [reflexivity | | |]; apply not_set_spec; now left.
Qed.

(** With [MODEL_DEPLOYMENT] empty, [AZURE_OPENAI_DEPLOYMENT] wins over
    [MODEL_NAME] and over the definition. *)
Lemma model_name_precedence_witness :
  ~ is_set Scenario.overrides "MODEL_DEPLOYMENT" /\
  Scenario.overrides !! "AZURE_OPENAI_DEPLOYMENT" = Some "gpt-4o-eastus" /\
  ChatClient.model_name Scenario.overrides Scenario.trail_guide
    = Some "gpt-4o-eastus".
Proof.
  assert (H0 : ~ is_set Scenario.overrides "MODEL_DEPLOYMENT").
  { intros (v & Hv & Hne). vm_compute in Hv. congruence. }
  split; [exact H0 |]. split; [reflexivity |].
  destruct (model_name_precedence Scenario.overrides Scenario.trail_guide)
    as (_ & H & _).
  apply (H H0 "gpt-4o-eastus"); [reflexivity | discriminate].
Defined.

(** ** The configuration loader *)

Section LoaderFacts.
Variable load_dotenv : dotenv.
Variable env_path : Path.
Variable env : environ.

Let decode_error := Config.decode_error load_dotenv env_path env.

(** While the attempts raise decode errors the loop goes on; it ends with
    the first attempt that loads. *)
Lemma for_encodings_first_loaded before encoding after last_error env' :
  (forall e, In e before -> decode_error e) ->
  load_dotenv env_path encoding env = Loaded env' ->
  for_encodings load_dotenv env_path (before ++ encoding :: after) last_error env
  = (Returned env', before ++ [encoding]).
Proof.
  revert last_error. induction before as [|b before IH]; intros last_error Hb Hl.
  - simpl. now rewrite Hl.
  - destruct (Hb b (or_introl eq_refl)) as (ex & Hex & Hcls).
    simpl. rewrite Hex. unfold is_UnicodeDecodeError. rewrite Hcls.
    rewrite IH; [reflexivity | | exact Hl].
    intros e He. apply Hb. now right.
Qed.

(** An exception that is not a decode error ends the loop at once and
    leaves the loader as it is. *)
Lemma for_encodings_first_other before encoding after last_error ex :
  (forall e, In e before -> decode_error e) ->
  load_dotenv env_path encoding env = LoadRaises ex ->
  cls ex <> UnicodeDecodeError ->
  for_encodings load_dotenv env_path (before ++ encoding :: after) last_error env
  = (Raised ex None, before ++ [encoding]).
Proof.
  revert last_error. induction before as [|b before IH]; intros last_error Hb Hl Hne.
  - simpl. rewrite Hl. unfold is_UnicodeDecodeError.
    destruct (cls ex); [reflexivity | congruence | reflexivity | reflexivity].
  - destruct (Hb b (or_introl eq_refl)) as (ex' & Hex & Hcls).
    simpl. rewrite Hex. unfold is_UnicodeDecodeError. rewrite Hcls.
    rewrite IH; [reflexivity | | exact Hl | exact Hne].
    intros e He. apply Hb. now right.
Qed.

(** When every attempt raises a decode error, every encoding is tried and
    the descriptive error is raised, chained to some exception unless no
    attempt was made. *)
Lemma for_encodings_all_decode_errors encs last_error :
  (forall e, In e encs -> decode_error e) ->
  exists cause,
    for_encodings load_dotenv env_path encs last_error env
    = (Raised (unreadable env_path) cause, encs)
    /\ (encs <> [] -> exists ex, cause = Some ex /\ cls ex = UnicodeDecodeError).
Proof.
  revert last_error. induction encs as [|b encs IH]; intros last_error Hb.
  - exists last_error. split; [reflexivity | congruence].
  - destruct (Hb b (or_introl eq_refl)) as (ex & Hex & Hcls).
    destruct (IH (Some ex)) as (cause & Hrun & Hcause).
    { intros e He. apply Hb. now right. }
    exists cause. split.
    + simpl. rewrite Hex. unfold is_UnicodeDecodeError. rewrite Hcls.
      now rewrite Hrun.
    + intros _. destruct encs as [|c encs].
      * simpl in Hrun. inversion Hrun. now exists ex.
      * apply Hcause. discriminate.
Qed.

(** A chained error comes from the end of the loop only: every attempt has
    raised a decode error. *)
Lemma for_encodings_chained encs last_error e cause :
  fst (for_encodings load_dotenv env_path encs last_error env)
  = Raised e (Some cause) ->
  encs <> [] ->
  e = unreadable env_path /\ forall enc, In enc encs -> decode_error enc.
Proof.
  revert last_error. induction encs as [|b encs IH]; intros last_error H Hne.
  - congruence.
  - simpl in H. destruct (load_dotenv env_path b env) as [env'|ex] eqn:Hl.
    + discriminate.
    + destruct (is_UnicodeDecodeError ex) eqn:Hu.
      * assert (Hb : decode_error b).
        { exists ex. split; [exact Hl |].
          unfold is_UnicodeDecodeError in Hu. now destruct (cls ex). }
        destruct (for_encodings load_dotenv env_path encs (Some ex) env)
          as [r tried] eqn:Hrun.
        simpl in H. subst r.
        destruct encs as [|c encs].
        -- simpl in Hrun. inversion Hrun. split; [reflexivity |].
           intros enc [<- | []]. exact Hb.
        -- destruct (IH (Some ex)) as [He Hall].
           { now rewrite Hrun. }
           { discriminate. }
           split; [exact He |]. intros enc [<- | Hin]; [exact Hb | now apply Hall].
      * simpl in H. discriminate.
Qed.

(** The attempts made are an initial part of the list handed to the loop. *)
Lemma for_encodings_tried encs last_error :
  exists rest,
    encs = snd (for_encodings load_dotenv env_path encs last_error env) ++ rest.
Proof.
  revert last_error. induction encs as [|b encs IH]; intros last_error.
  - now exists [].
  - simpl. destruct (load_dotenv env_path b env) as [env'|ex].
    + now exists encs.
    + destruct (is_UnicodeDecodeError ex).
      * destruct (IH (Some ex)) as [rest Hrest].
        destruct (for_encodings load_dotenv env_path encs (Some ex) env)
          as [r tried].
        exists rest. simpl in *. now rewrite <- Hrest.
      * now exists encs.
Qed.

(** An error that is not chained is one [load_dotenv] raised itself. *)
Lemma for_encodings_unchained encs last_error e :
  fst (for_encodings load_dotenv env_path encs last_error env) = Raised e None ->
  (encs = [] /\ last_error = None)
  \/ exists enc, In enc encs /\ load_dotenv env_path enc env = LoadRaises e
                 /\ cls e <> UnicodeDecodeError.
Proof.
  revert last_error. induction encs as [|b encs IH]; intros last_error H.
  - left. simpl in H. split; [reflexivity | congruence].
  - right. simpl in H.
    destruct (load_dotenv env_path b env) as [env'|ex] eqn:Hl; [discriminate |].
    destruct (is_UnicodeDecodeError ex) eqn:Hu.
    + destruct (for_encodings load_dotenv env_path encs (Some ex) env)
        as [r tried] eqn:Hrun.
      simpl in H. subst r.
      destruct (IH (Some ex)) as [[_ Hnone] | (enc & Hin & Henc)].
      * now rewrite Hrun.
      * discriminate.
      * exists enc. split; [now right | exact Henc].
    + simpl in H. inversion H; subst ex. exists b.
      split; [now left |]. split; [exact Hl |].
      unfold is_UnicodeDecodeError in Hu. destruct (cls e); congruence.
Qed.

End LoaderFacts.

Lemma unreadable_names_path (env_path : Path) :
  Py.occurs_in env_path (text (unreadable env_path))
  /\ Py.occurs_in "Please save it as UTF-8." (text (unreadable env_path)).
Proof.
  split.
  - exists "Unable to read .env file at ", ". Please save it as UTF-8.".
    reflexivity.
  - exists ("Unable to read .env file at " +:+ env_path +:+ ". "), "".
    cbn [text unreadable]. now rewrite !append_assoc.
Qed.

(** What the loader guarantees, whatever [load_dotenv] does: the attempts it
    makes are an initial part of the list of encodings; it returns at the
    first attempt that loads when every attempt before it raised a decode
    error; it raises its descriptive error, chained to a decode error, if
    and only if every attempt raises a decode error, after trying all
    five; the message names the path and asks to save the file as UTF-8. *)
Lemma load_env_with_fallbacks_contract
    (load_dotenv : dotenv) (env_path : Path) (env : environ) :
  let run := load_env_with_fallbacks load_dotenv env_path env in
  let decode_error := Config.decode_error load_dotenv env_path env in
  encodings
    = [None; Some "utf-8-sig"; Some "utf-16"; Some "utf-16-le"; Some "utf-16-be"] /\
  (exists rest, encodings = snd run ++ rest) /\
  (forall before encoding after env',
     encodings = before ++ encoding :: after ->
     (forall e, In e before -> decode_error e) ->
     load_dotenv env_path encoding env = Loaded env' ->
     run = (Returned env', before ++ [encoding])) /\
  ((exists cause, fst run = Raised (unreadable env_path) (Some cause))
   <-> (forall e, In e encodings -> decode_error e)) /\
  ((forall e, In e encodings -> decode_error e) -> snd run = encodings) /\
  Py.occurs_in env_path (text (unreadable env_path)) /\
  Py.occurs_in "Please save it as UTF-8." (text (unreadable env_path)).
Proof.
  intros run decode_error. subst run. unfold load_env_with_fallbacks.
  split; [reflexivity |].
  split; [apply for_encodings_tried |].
  split.
  { intros before encoding after env' Heq Hb Hl. rewrite Heq.
    now apply for_encodings_first_loaded. }
  split.
  { split.
    - intros [cause H].
      apply for_encodings_chained in H; [apply H | discriminate].
    - intros Hall.
      destruct (for_encodings_all_decode_errors load_dotenv env_path env
                  encodings None Hall) as (cause & Hrun & Hcause).
      destruct Hcause as (ex & -> & _); [discriminate |].
      exists ex. now rewrite Hrun. }
  split.
  { intros Hall.
    destruct (for_encodings_all_decode_errors load_dotenv env_path env
                encodings None Hall) as (cause & Hrun & _).
    now rewrite Hrun. }
  apply unreadable_names_path.
Qed.

(** C3. The code on a file that is not UTF-8, has no byte-order mark and an
    even number of bytes (0x80 0x61 0x62 0x63). The default and the
    utf-8-sig attempts raise decode errors. The utf-16 attempt fails to
    decode as well, but with the codec's [UnicodeError], the parent class,
    which [except UnicodeDecodeError] does not catch. The loader lets it
    through after three attempts: it does not go on to utf-16-le and
    utf-16-be, either of which reads the file, it does not return, and it
    does not raise its descriptive error. *)
Theorem load_env_with_fallbacks_stops_at_utf16 :
  let run := load_env_with_fallbacks Scenario.bomless Scenario.repo_env ∅ in
  decode_error Scenario.bomless Scenario.repo_env ∅ None /\
  decode_error Scenario.bomless Scenario.repo_env ∅ (Some "utf-8-sig") /\
  Scenario.bomless Scenario.repo_env (Some "utf-16") ∅
  = LoadRaises Scenario.no_byte_order_mark /\
  Scenario.bomless Scenario.repo_env (Some "utf-16-le") ∅ = Loaded ∅ /\
  Scenario.bomless Scenario.repo_env (Some "utf-16-be") ∅ = Loaded ∅ /\
  run = (Raised Scenario.no_byte_order_mark None,
         [None; Some "utf-8-sig"; Some "utf-16"]) /\
  (forall env', fst run <> Returned env') /\
  (forall cause, fst run <> Raised (unreadable Scenario.repo_env) cause).
Proof.
  cbv zeta.
  split; [exists (Scenario.invalid_start_byte "0x80"); split; reflexivity |].
  split; [exists (Scenario.invalid_start_byte "0x80"); split; reflexivity |].
  repeat (split; [reflexivity |]).
  split; intros x H; vm_compute in H; discriminate.
Qed.

(** ** The required variables *)

Lemma missing_vars_spec (required : list string) (env : environ) (name : string) :
  In name (missing_vars required env)
  <-> In name required /\ (env !! name = None \/ env !! name = Some "").
Proof.
  unfold missing_vars. rewrite filter_In, negb_true_iff, not_truthy_is_set.
  now rewrite not_set_spec.
Qed.

Lemma missing_required_text (missing : list string) (env_file : Path) :
  text (missing_required missing env_file)
  = "Missing required environment variable(s): " +:+ Py.join ", " missing
    +:+ ". " +:+ "Expected .env at: " +:+ env_file.
Proof. reflexivity. Qed.

Lemma missing_required_names (missing : list string) (env_file : Path) :
  (forall name, In name missing ->
     Py.occurs_in name (text (missing_required missing env_file)))
  /\ Py.occurs_in env_file (text (missing_required missing env_file)).
Proof.
  rewrite missing_required_text. split.
  - intros name Hin.
    apply occurs_in_append_r, occurs_in_append_l. now apply occurs_in_join.
  - do 4 apply occurs_in_append_r. apply occurs_in_refl.
Qed.

(** An error of the start-up code ends either script at once: nothing has
    been printed and no remote call has been made. *)
Lemma launch_configure_raised (ep : entry_point) (w : world) (env : environ)
    (e : exception) (cause : option exception) :
  configure (load_dotenv w) (env_file w) (required_vars ep) env = Raised e cause ->
  launch ep w env = (Uncaught e, []).
Proof.
  intros H. destruct ep; simpl in *.
  - unfold Provisioner.main. now rewrite H.
  - unfold ChatClient.main. now rewrite H.
Qed.

(** The start-up code raises either what the loader raised or the error
    about the missing variables. *)
Lemma configure_raised (load_dotenv : dotenv) (env_file : Path)
    (required : list string) (env : environ) (e : exception)
    (cause : option exception) :
  configure load_dotenv env_file required env = Raised e cause ->
  fst (load_env_with_fallbacks load_dotenv env_file env) = Raised e cause
  \/ exists env',
       fst (load_env_with_fallbacks load_dotenv env_file env) = Returned env'
       /\ missing_vars required env' <> []
       /\ e = missing_required (missing_vars required env') env_file
       /\ cause = None.
Proof.
  unfold configure.
  destruct (fst (load_env_with_fallbacks load_dotenv env_file env))
    as [env'|e' cause'].
  - destruct (missing_vars required env') as [|m missing] eqn:Hm; [discriminate |].
    intros H. inversion H; subst. right. exists env'.
    rewrite Hm. repeat split. discriminate.
  - intros H. inversion H; subst. now left.
Qed.

Lemma configure_missing (load_dotenv : dotenv) (env_file : Path)
    (required : list string) (env env' : environ) :
  fst (load_env_with_fallbacks load_dotenv env_file env) = Returned env' ->
  missing_vars required env' <> [] ->
  configure load_dotenv env_file required env
  = Raised (missing_required (missing_vars required env') env_file) None.
Proof.
  intros Hl Hm. unfold configure. rewrite Hl.
  now destruct (missing_vars required env').
Qed.

(** C4. For each entry point, when a required variable is absent or empty
    after loading, the script ends with a [RuntimeError] whose message
    lists exactly the missing names, in the order of [required_vars] and
    separated by commas, followed by the path at which the [.env] file was
    expected: a name is listed if and only if it is required and absent or
    empty, every listed name occurs in the message, and so does the path. *)
Theorem missing_variables_are_enumerated
    (ep : entry_point) (w : world) (env env' : environ) :
  fst (load_env_with_fallbacks (load_dotenv w) (env_file w) env) = Returned env' ->
  (exists name, In name (required_vars ep)
                /\ (env' !! name = None \/ env' !! name = Some "")) ->
  let missing := missing_vars (required_vars ep) env' in
  let msg := "Missing required environment variable(s): "
             +:+ Py.join ", " missing +:+ ". "
             +:+ "Expected .env at: " +:+ env_file w in
  required_vars provisioner = ["AZURE_AI_PROJECT_ENDPOINT"; "AGENT_NAME"] /\
  required_vars chat_client
    = ["AZURE_AI_PROJECT_ENDPOINT"; "AZURE_OPENAI_ENDPOINT"; "AGENT_NAME"] /\
  launch ep w env = (Uncaught (Exc RuntimeError msg), []) /\
  (forall name, In name missing
     <-> In name (required_vars ep)
         /\ (env' !! name = None \/ env' !! name = Some "")) /\
  (forall name, In name missing -> Py.occurs_in name msg) /\
  Py.occurs_in (env_file w) msg.
Proof.
  intros Hl (name & Hin & Habsent) missing msg.
  split; [reflexivity |]. split; [reflexivity |].
  assert (Hm : missing <> []).
  { intros Hnil. assert (Hn : In name missing) by now apply missing_vars_spec.
    rewrite Hnil in Hn. destruct Hn. }
  split.
  { apply (launch_configure_raised ep w env _ None).
    now apply configure_missing. }
  split; [intros n; apply missing_vars_spec |].
  apply (missing_required_names missing (env_file w)).
Qed.

(** The chat client with [AGENT_NAME] left out of the file and
    [AZURE_AI_PROJECT_ENDPOINT] left empty. *)
Lemma missing_variables_are_enumerated_witness :
  launch chat_client
    (Scenario.a_world (Scenario.readable Scenario.incomplete) []) ∅
  = (Uncaught
       (Exc RuntimeError
          ("Missing required environment variable(s): "
           +:+ "AZURE_AI_PROJECT_ENDPOINT, AGENT_NAME" +:+ ". "
           +:+ "Expected .env at: " +:+ "/repo/.env")),
     []).
Proof.
  refine (proj1 (proj2 (proj2
    (missing_variables_are_enumerated chat_client
       (Scenario.a_world (Scenario.readable Scenario.incomplete) []) ∅
       (∅ ∪ Scenario.incomplete) _ _)))).
  - reflexivity.
  - exists "AGENT_NAME". split; [right; right; now left | left; reflexivity].
Defined.

(** ** Errors of the start-up code *)

(** C8. The code on the same file, for either entry point: the script ends
    before any remote call, with the [UnicodeError] of the utf-16 codec as
    it is. Its text, the only report of the error, holds neither the path
    of the configuration file nor the name of a required variable. *)
Theorem start_up_error_names_neither_path_nor_variable :
  forall ep,
    launch ep (Scenario.a_world Scenario.bomless []) ∅
    = (Uncaught Scenario.no_byte_order_mark, [])
    /\ text Scenario.no_byte_order_mark = "UTF-16 stream does not start with BOM"
    /\ ~ Py.occurs_in Scenario.repo_env (text Scenario.no_byte_order_mark)
    /\ forall name, In name (required_vars ep) ->
         ~ Py.occurs_in name (text Scenario.no_byte_order_mark).
Proof.
  intros ep. split; [now destruct ep |]. split; [reflexivity |]. split.
  - apply contains_false. reflexivity.
  - intros name Hin. apply contains_false.
    destruct ep; simpl in Hin;
      repeat (destruct Hin as [<- | Hin]; [reflexivity |]); destruct Hin.
Qed.

(** ** The chat loop *)

Import ChatClient.

Lemma loop_body_input_raises requested t s ex :
  typed t = InputRaises ex ->
  loop_body requested t s = Throw ex (write prompt s).
Proof. intros H. unfold loop_body. now rewrite H. Qed.

Lemma loop_body_empty requested t s l :
  typed t = Line l -> Py.strip l = "" ->
  loop_body requested t s = Continue (write prompt s).
Proof. intros H Hl. unfold loop_body. now rewrite H, Hl. Qed.

Lemma loop_body_exit requested t s l :
  typed t = Line l ->
  In (Py.lower (Py.strip l)) exit_words ->
  loop_body requested t s = Break (print farewell (write prompt s)).
Proof.
  intros H Hin. unfold loop_body. rewrite H.
  assert (Hne : Py.str_truthy (Py.strip l) = true).
  { apply str_truthy_spec. intros Hnil. rewrite Hnil in Hin.
    vm_compute in Hin. intuition discriminate. }
  rewrite Hne. simpl negb. cbv iota.
  apply member_spec in Hin. now rewrite Hin.
Qed.

(** A line that is neither empty nor an exit word is sent to the model. *)
Lemma loop_body_normal requested t s l :
  typed t = Line l ->
  Py.strip l <> "" ->
  ~ In (Py.lower (Py.strip l)) exit_words ->
  let asked := append (Message "user" (Some (Py.strip l))) (write prompt s) in
  let sent := call (ChatCompletion requested (messages asked)) asked in
  loop_body requested t s
  = match answered t with
    | ChatRaises ex => Throw ex sent
    | Response [] => Throw IndexError sent
    | Response (reply :: _) =>
        Continue
          (print (Py.nl +:+ "Agent: " +:+ Py.or_empty reply +:+ Py.nl)
             (append (Message "assistant" (Some (Py.or_empty reply))) sent))
    end.
Proof.
  intros H Hne Hin. unfold loop_body. rewrite H.
  apply str_truthy_spec in Hne. rewrite Hne. simpl negb. cbv iota.
  destruct (Py.member (Py.lower (Py.strip l)) exit_words) eqn:Hm.
  - apply member_spec in Hm. contradiction.
  - reflexivity.
Qed.

(** A line that is an exit word up to case has no whitespace to strip. *)
Lemma exit_word_strip l :
  In (Py.lower l) exit_words -> Py.strip l = l.
Proof.
  intros Hin. apply strip_plain. rewrite <- plain_lower.
  destruct Hin as [<- | [<- | [<- | []]]]; reflexivity.
Qed.

(** Every iteration starts with the prompt and only adds to the output. *)
Lemma loop_body_stdout requested t s :
  exists more,
    stdout (flow_state (loop_body requested t s)) = stdout s ++ [prompt] ++ more.
Proof.
  unfold loop_body. destruct (typed t) as [l|ex].
  - destruct (negb (Py.str_truthy (Py.strip l))); [now exists [] |].
    destruct (Py.member (Py.lower (Py.strip l)) exit_words).
    + exists [print_line farewell]. simpl. now rewrite <- app_assoc.
    + destruct (answered t) as [[|reply more]|ex]; [now exists [] | | now exists []].
      eexists. simpl. rewrite <- app_assoc. reflexivity.
  - now exists [].
Qed.

(** The loop writes the prompt before anything else. *)
Lemma while_true_stdout requested script s :
  exists more,
    stdout (state_of (while_true requested script s)) = stdout s ++ [prompt] ++ more.
Proof.
  revert s. induction script as [|t rest IH]; intros s.
  - now exists [].
  - simpl. destruct (loop_body_stdout requested t s) as [more Hmore].
    destruct (loop_body requested t s) as [s'|s'|ex s']; simpl in Hmore.
    + destruct (IH s') as [more' Hmore']. rewrite Hmore', Hmore.
      exists (more ++ [prompt] ++ more'). now rewrite <- !app_assoc.
    + now exists more.
    + now exists more.
Qed.

(** C10. An input line that is empty once stripped, that is a line made of
    whitespace characters only, makes the iteration a no-op: the
    transcript, and so its length, is unchanged, no remote call is made,
    and the loop goes on to its next iteration, which writes the prompt
    again. *)
Theorem empty_input_is_a_no_op
    (requested : option string) (t : turn) (s : session) (l : string) :
  typed t = Line l ->
  Py.strip l = "" ->
  loop_body requested t s = Continue (write prompt s) /\
  messages (write prompt s) = messages s /\
  length (messages (write prompt s)) = length (messages s) /\
  calls (write prompt s) = calls s /\
  (forall rest,
     while_true requested (t :: rest) s
     = while_true requested rest (write prompt s)) /\
  (forall rest, exists more,
     stdout (state_of (while_true requested (t :: rest) s))
     = stdout s ++ [prompt; prompt] ++ more) /\
  Py.Blank l.
Proof.
  intros H Hl.
  pose proof (loop_body_empty requested t s l H Hl) as Hbody.
  split; [exact Hbody |]. repeat (split; [reflexivity |]).
  split; [| split; [| now apply strip_empty]].
  - intros rest. simpl. now rewrite Hbody.
  - intros rest. simpl. rewrite Hbody.
    destruct (while_true_stdout requested rest (write prompt s)) as [more Hmore].
    exists more. rewrite Hmore. simpl. now rewrite <- app_assoc.
Qed.

(** A space, an ideographic space and a no-break space typed at the first
    prompt. *)
Lemma empty_input_is_a_no_op_witness :
  let l := " " +:+ Scenario.ideographic_space +:+ Scenario.no_break_space in
  loop_body (Some "gpt-4.1") (Turn (Line l) Scenario.silent) Scenario.started
  = Continue (write prompt Scenario.started).
Proof.
  refine (proj1 (empty_input_is_a_no_op (Some "gpt-4.1")
                   (Turn (Line _) Scenario.silent) Scenario.started
                   (" " +:+ Scenario.ideographic_space
                    +:+ Scenario.no_break_space) _ _));
    reflexivity.
Defined.

(** C6. An input line that is "exit", "quit" or "q" up to case ends the
    loop: the farewell is printed, the session comes to rest with status 0
    whatever the terminal or the model would have done next, nothing is
    appended to the transcript and no chat-completion call is made. *)
Theorem exit_word_ends_the_session
    (requested : option string) (t : turn) (rest : list turn)
    (s : session) (l : string) :
  typed t = Line l ->
  In (Py.lower l) exit_words ->
  let r := chat_loop requested (t :: rest) s in
  exit_words = ["exit"; "quit"; "q"] /\
  loop_body requested t s = Break (print farewell (write prompt s)) /\
  r = {| ended := Exit 0; final := close (print farewell (write prompt s)) |} /\
  stdout (final r) = stdout s ++ [prompt; print_line farewell] /\
  messages (final r) = messages s /\
  calls (final r) = calls s.
Proof.
  intros H Hin r.
  assert (Hbody : loop_body requested t s = Break (print farewell (write prompt s))).
  { apply (loop_body_exit requested t s l H). now rewrite exit_word_strip. }
  assert (Hr : r = {| ended := Exit 0;
                      final := close (print farewell (write prompt s)) |}).
  { subst r. unfold chat_loop. simpl. now rewrite Hbody. }
  split; [reflexivity |]. split; [exact Hbody |]. split; [exact Hr |].
  rewrite Hr. simpl. rewrite <- app_assoc. repeat split.
Qed.

(** "QUIT" typed at the first prompt; the turn that would follow is not
    played. *)
Lemma exit_word_ends_the_session_witness :
  chat_loop (Some "gpt-4.1")
    [Turn (Line "QUIT") Scenario.silent; Turn (Line "hello") (Scenario.says "hi")]
    Scenario.started
  = {| ended := Exit 0;
       final := close (print farewell (write prompt Scenario.started)) |}.
Proof.
  refine (proj1 (proj2 (proj2
    (exit_word_ends_the_session (Some "gpt-4.1")
       (Turn (Line "QUIT") Scenario.silent)
       [Turn (Line "hello") (Scenario.says "hi")]
       Scenario.started "QUIT" _ _)))).
  - reflexivity.
  - right. left. reflexivity.
Defined.


(** C5, as the code has it. For an input line that is neither empty nor an
    exit word, when the chat-completion call returns a response with a
    first choice, the iteration appends exactly two entries to the
    transcript, the user's message (the line without the whitespace at its
    ends) and then the assistant's, and makes exactly one chat-completion
    call, for the requested model and with the whole transcript, the new
    user message included. The assistant entry always has a content: the
    reply's, or the empty string when the reply has none. The loop then
    goes on. *)
Theorem normal_turn_appends_two_entries
    (requested : option string) (t : turn) (s : session) (l : string)
    (reply : option string) (others : list (option string)) :
  typed t = Line l ->
  Py.strip l <> "" ->
  ~ In (Py.lower (Py.strip l)) exit_words ->
  answered t = Response (reply :: others) ->
  let user_entry := Message "user" (Some (Py.strip l)) in
  let said := match reply with Some c => c | None => "" end in
  let assistant_entry := Message "assistant" (Some said) in
  exists s',
    loop_body requested t s = Continue s' /\
    messages s' = messages s ++ [user_entry; assistant_entry] /\
    length (messages s') = length (messages s) + 2 /\
    calls s' = calls s ++ [ChatCompletion requested (messages s ++ [user_entry])] /\
    stdout s'
    = stdout s ++ [prompt; print_line (Py.nl +:+ "Agent: " +:+ said +:+ Py.nl)] /\
    (reply = None -> content assistant_entry = Some "") /\
    (forall rest,
       while_true requested (t :: rest) s = while_true requested rest s') /\
    (exists pre post,
       l = pre +:+ Py.strip l +:+ post
       /\ Py.Blank pre /\ Py.Blank post
       /\ ~ Py.starts_with_space (Py.strip l)
       /\ ~ Py.ends_with_space (Py.strip l)).
Proof.
  intros H Hne Hin Ha user_entry said assistant_entry.
  pose proof (loop_body_normal requested t s l H Hne Hin) as Hbody.
  rewrite Ha in Hbody. simpl in Hbody. rewrite or_empty_spec in Hbody.
  eexists. split; [exact Hbody |]. simpl.
  split; [now rewrite <- app_assoc |].
  split; [rewrite !length_app; simpl; lia |].
  split; [reflexivity |].
  split; [now rewrite <- app_assoc |].
  split; [now intros -> |].
  split; [| apply strip_spec].
  intros rest. now rewrite Hbody.
Qed.

(** C5, as the specification words it, fails when the call raises: the
    user's entry has been appended, no assistant entry follows it, and the
    exception leaves the loop. *)
Lemma normal_turn_counterexample :
  ~ Stated.normal_line_appends_two_entries (Some "gpt-4.1")
      (Turn (Line "hello") (ChatRaises Scenario.connection_error))
      Scenario.started
  /\ loop_body (Some "gpt-4.1")
       (Turn (Line "hello") (ChatRaises Scenario.connection_error))
       Scenario.started
     = Throw Scenario.connection_error
         (call (ChatCompletion (Some "gpt-4.1")
                  (messages Scenario.started ++ [Message "user" (Some "hello")]))
            (append (Message "user" (Some "hello"))
               (write prompt Scenario.started))).
Proof.
  split; [| reflexivity].
  intros H. destruct (H "hello") as (said & Hm & _).
  - reflexivity.
  - vm_compute. discriminate.
  - vm_compute. intuition discriminate.
  - apply (f_equal (@length message)) in Hm. vm_compute in Hm. discriminate.
Qed.

(** A question the model answers without content. *)
Lemma normal_turn_appends_two_entries_witness :
  exists s',
    loop_body (Some "gpt-4.1") (Turn (Line " Where to hike? ") Scenario.silent)
      Scenario.started = Continue s'
    /\ messages s'
       = messages Scenario.started
         ++ [Message "user" (Some "Where to hike?"); Message "assistant" (Some "")].
Proof.
  destruct (normal_turn_appends_two_entries (Some "gpt-4.1")
              (Turn (Line " Where to hike? ") Scenario.silent)
              Scenario.started " Where to hike? " None [])
    as (s' & Hbody & Hmessages & _).
  - reflexivity.
  - vm_compute. discriminate.
  - vm_compute. intuition discriminate.
  - reflexivity.
  - exists s'. split; [exact Hbody | exact Hmessages].
Defined.

(** An interrupt or any other exception at the prompt, and an exception of
    the chat-completion call, leave the loop as they are raised. *)
Lemma while_true_input_raises requested t rest s ex :
  typed t = InputRaises ex ->
  while_true requested (t :: rest) s = Threw ex (write prompt s).
Proof. intros H. simpl. now rewrite (loop_body_input_raises requested t s ex H). Qed.

Lemma while_true_chat_raises requested t rest s l ex :
  typed t = Line l ->
  Py.strip l <> "" ->
  ~ In (Py.lower (Py.strip l)) exit_words ->
  answered t = ChatRaises ex ->
  exists s',
    while_true requested (t :: rest) s = Threw ex s'
    /\ messages s' = messages s ++ [Message "user" (Some (Py.strip l))]
    /\ calls s' = calls s ++ [ChatCompletion requested (messages s')].
Proof.
  intros H Hne Hin Ha. simpl.
  rewrite (loop_body_normal requested t s l H Hne Hin), Ha.
  eexists. split; [reflexivity |]. split; reflexivity.
Qed.




Lemma on_exception_stdout requested ex s :
  stdout (on_exception requested ex s)
  = stdout s ++
    (if Py.contains "DeploymentNotFound" (text ex)
        || Py.contains "Error code: 404" (text ex)
     then remediation requested
     else [print_line (Py.nl +:+ "Error: " +:+ text ex)]).
Proof.
  unfold on_exception.
  destruct (Py.contains "DeploymentNotFound" (text ex)
            || Py.contains "Error code: 404" (text ex)).
  - unfold not_found_block, remediation. simpl. now rewrite <- !app_assoc.
  - reflexivity.
Qed.

Lemma on_exception_frame requested ex s :
  messages (on_exception requested ex s) = messages s
  /\ calls (on_exception requested ex s) = calls s.
Proof.
  unfold on_exception.
  destruct (Py.contains "DeploymentNotFound" (text ex)
            || Py.contains "Error code: 404" (text ex)); split; reflexivity.
Qed.



(** ** The provisioner *)

Lemma configure_returned load_dotenv env_file required env env' :
  configure load_dotenv env_file required env = Returned env' ->
  fst (load_env_with_fallbacks load_dotenv env_file env) = Returned env'
  /\ forall name, In name required -> is_set env' name.
Proof.
  unfold configure.
  destruct (fst (load_env_with_fallbacks load_dotenv env_file env))
    as [env1|e cause]; [| discriminate].
  destruct (missing_vars required env1) as [|m missing] eqn:Hm; [| discriminate].
  intros H. inversion H; subst env1. split; [reflexivity |].
  intros name Hin. apply truthy_is_set.
  destruct (Py.truthy (getenv env' name)) eqn:Ht; [reflexivity |].
  assert (Hmiss : In name (missing_vars required env')).
  { unfold missing_vars. apply filter_In. split; [exact Hin | now rewrite Ht]. }
  rewrite Hm in Hmiss. destruct Hmiss.
Qed.

(** C9. Once its configuration is valid and the instruction file has been
    read, the provisioner makes exactly one remote call, a
    [create_version] for the agent [AGENT_NAME], whose instructions are the
    content of the file stripped of surrounding whitespace (the content is
    these instructions between two runs of whitespace characters, and the
    instructions neither begin nor end with one) and whose model is the
    value of [MODEL_NAME], or "gpt-4.1" when [MODEL_NAME] is not set. The
    chat client has no such constant: with its three override variables
    unset it requests the model of the agent's definition. *)
Theorem provisioner_creates_one_version
    (load_dotenv : dotenv) (env_file : Path) (data : string)
    (create_version : string -> string -> string -> Provisioner.create_outcome)
    (env env' : environ) :
  configure load_dotenv env_file Provisioner.required_vars env = Returned env' ->
  let r := Provisioner.main load_dotenv env_file (Provisioner.Content data)
             create_version env in
  exists agent_name,
    env' !! "AGENT_NAME" = Some agent_name /\
    (forall m, env' !! "MODEL_NAME" = Some m ->
       Provisioner.calls r = [CreateVersion agent_name m (Py.strip data)]) /\
    (env' !! "MODEL_NAME" = None ->
       Provisioner.calls r = [CreateVersion agent_name "gpt-4.1" (Py.strip data)]) /\
    (forall client_env d,
       client_env !! "MODEL_DEPLOYMENT" = None ->
       client_env !! "AZURE_OPENAI_DEPLOYMENT" = None ->
       client_env !! "MODEL_NAME" = None ->
       ChatClient.model_name client_env d = ChatClient.model d) /\
    (exists pre post,
       data = pre +:+ Py.strip data +:+ post
       /\ Py.Blank pre /\ Py.Blank post
       /\ ~ Py.starts_with_space (Py.strip data)
       /\ ~ Py.ends_with_space (Py.strip data)).
Proof.
  intros Hc r.
  destruct (configure_returned _ _ _ _ _ Hc) as [_ Hset].
  destruct (Hset "AGENT_NAME") as (agent_name & Hname & _); [right; now left |].
  destruct (Hset "AZURE_AI_PROJECT_ENDPOINT") as (endpoint & Hend & _); [now left |].
  exists agent_name. split; [exact Hname |].
  assert (Hcalls : Provisioner.calls r
                   = [CreateVersion agent_name
                        (getenv_default env' "MODEL_NAME" "gpt-4.1")
                        (Py.strip data)]).
  { subst r. unfold Provisioner.main. rewrite Hc, Hend, Hname.
    now destruct (create_version agent_name _ (Py.strip data)). }
  rewrite Hcalls. unfold getenv_default. split; [| split; [| split]].
  - intros m Hm. now rewrite Hm.
  - intros Hm. now rewrite Hm.
  - intros client_env d HA HB HC. unfold ChatClient.model_name.
    rewrite !py_or_not_set; [reflexivity | | |]; apply not_set_spec; now left.
  - apply strip_spec.
Qed.

(** The provisioner run on a complete configuration without [MODEL_NAME];
    the file begins with an ideographic space and ends with a no-break
    space and a line feed. *)
Lemma provisioner_creates_one_version_witness :
  let data := Scenario.ideographic_space +:+ "Guide hikers safely."
              +:+ Scenario.no_break_space +:+ Py.nl in
  Provisioner.calls
    (Provisioner.main (Scenario.readable Scenario.complete) Scenario.repo_env
       (Provisioner.Content data) Scenario.accepting ∅)
  = [CreateVersion "trail-guide" "gpt-4.1" "Guide hikers safely."].
Proof.
  cbv zeta.
  destruct (provisioner_creates_one_version
              (Scenario.readable Scenario.complete) Scenario.repo_env
              (Scenario.ideographic_space +:+ "Guide hikers safely."
               +:+ Scenario.no_break_space +:+ Py.nl) Scenario.accepting ∅
              (∅ ∪ Scenario.complete))
    as (agent_name & Hname & _ & Hdefault & _).
  - reflexivity.
  - rewrite Hdefault by reflexivity.
    vm_compute in Hname. inversion Hname. reflexivity.
Defined.

(** ** The handlers cover every exception of the loop *)

Lemma is_Exception_spec (ex : exception) :
  is_Exception ex = negb (is_KeyboardInterrupt ex).
Proof. unfold is_Exception, is_KeyboardInterrupt. now destruct (cls ex). Qed.

(** Whatever the terminal and the services do, a session that has ended
    has ended with status 0 or 1 and with the client closed. *)
Lemma chat_loop_ends requested script s :
  ended (chat_loop requested script s) = AwaitingInput
  \/ (closed (final (chat_loop requested script s)) = true
      /\ (ended (chat_loop requested script s) = Exit 0
          \/ ended (chat_loop requested script s) = Exit 1)).
Proof.
  unfold chat_loop.
  destruct (while_true requested script s) as [s'|s'|ex s']; [now left | |].
  - right. split; [reflexivity | now left].
  - right. rewrite is_Exception_spec.
    destruct (is_KeyboardInterrupt ex); split; simpl; auto.
Qed.

(** ** Two sessions, run from the first line to the last *)

Example strip_example :
  Py.strip ("  Guide hikers safely. " +:+ Py.nl) = "Guide hikers safely.".
Proof. reflexivity. Qed.

Example contains_example :
  Py.contains "Error code: 404" (text Scenario.not_found) = true
  /\ Py.contains "DeploymentNotFound" (text Scenario.connection_error) = false.
Proof. split; reflexivity. Qed.

(** The configuration names the agent, no override is set and the
    definition says "gpt-4.1": that is the model the banner shows and the
    one the question is sent to. *)
Example chat_session :
  let r := ChatClient.main (Scenario.readable Scenario.complete)
             Scenario.repo_env Scenario.service
             [Turn (Line "Where to hike?") (Scenario.says "Try the ridge.");
              Turn (Line "") Scenario.silent;
              Turn (Line "Exit") Scenario.silent] ∅ in
  ended r = Exit 0
  /\ In (print_line "Model: gpt-4.1") (stdout (final r))
  /\ messages (final r)
     = [Message "system" (Some "You are a trail guide.");
        Message "user" (Some "Where to hike?");
        Message "assistant" (Some "Try the ridge.")]
  /\ calls (final r)
     = [GetAgent "trail-guide";
        ChatCompletion (Some "gpt-4.1")
          [Message "system" (Some "You are a trail guide.");
           Message "user" (Some "Where to hike?")]]
  /\ closed (final r) = true.
Proof.
  vm_compute. repeat split. do 3 right. now left.
Qed.

Example provisioner_run :
  Provisioner.main (Scenario.readable Scenario.complete) Scenario.repo_env
    (Provisioner.Content "  Guide hikers safely.  ") Scenario.accepting
    {[ "MODEL_NAME" := "gpt-4o" ]}
  = {| Provisioner.ended := Exit 0;
       Provisioner.stdout :=
         [print_line "Agent created (id: trail-guide:1, name: trail-guide, version: 1)"];
       Provisioner.calls :=
         [CreateVersion "trail-guide" "gpt-4o" "Guide hikers safely."] |}.
Proof. reflexivity. Qed.

(** A connection error is printed as it is. *)
Example raw_error :
  let r := ChatClient.main (Scenario.readable Scenario.complete)
             Scenario.repo_env Scenario.service
             [Turn (Line "hello") (ChatRaises Scenario.connection_error)] ∅ in
  ended r = Exit 1
  /\ last (stdout (final r)) = Some (print_line (Py.nl +:+ "Error: Connection error."))
  /\ length (messages (final r)) = 2.
Proof. vm_compute. repeat split. Qed.

(** * Further properties of the scripts *)

(** ** The loader, read backwards from its result *)

Section LoaderResults.
Variable load_dotenv : dotenv.
Variable env_path : Path.
Variable env : environ.

Lemma for_encodings_returned encs last_error env' :
  fst (for_encodings load_dotenv env_path encs last_error env) = Returned env' ->
  exists before encoding after,
    encs = before ++ encoding :: after
    /\ snd (for_encodings load_dotenv env_path encs last_error env)
       = before ++ [encoding]
    /\ load_dotenv env_path encoding env = Loaded env'
    /\ forall e, In e before -> decode_error load_dotenv env_path env e.
Proof.
  revert last_error. induction encs as [|b encs IH]; intros last_error H.
  - discriminate.
  - simpl in *. destruct (load_dotenv env_path b env) as [env1|ex] eqn:Hl.
    + inversion H; subst env1. exists [], b, encs. repeat split; [exact Hl |].
      intros e [].
    + destruct (is_UnicodeDecodeError ex) eqn:Hu; [| discriminate].
      destruct (for_encodings load_dotenv env_path encs (Some ex) env)
        as [r tried] eqn:Hrun.
      destruct (IH (Some ex)) as (before & enc & after & -> & Htried & Hload & Hb).
      { now rewrite Hrun. }
      rewrite Hrun in Htried. simpl in Htried. subst tried.
      exists (b :: before), enc, after. repeat split; [exact Hload |].
      intros e [<- | He]; [| now apply Hb].
      exists ex. split; [exact Hl |].
      unfold is_UnicodeDecodeError in Hu. now destruct (cls ex).
Qed.

Lemma for_encodings_cause encs last_error e c :
  fst (for_encodings load_dotenv env_path encs last_error env)
  = Raised e (Some c) ->
  (encs = [] /\ last_error = Some c)
  \/ exists init encoding,
       encs = init ++ [encoding]
       /\ load_dotenv env_path encoding env = LoadRaises c.
Proof.
  revert last_error. induction encs as [|b encs IH]; intros last_error H.
  - left. simpl in H. split; [reflexivity | congruence].
  - right. simpl in H.
    destruct (load_dotenv env_path b env) as [env1|ex] eqn:Hl; [discriminate |].
    destruct (is_UnicodeDecodeError ex) eqn:Hu; [| discriminate].
    destruct (for_encodings load_dotenv env_path encs (Some ex) env)
      as [r tried] eqn:Hrun.
    simpl in H. subst r.
    destruct (IH (Some ex)) as [[-> Hc] | (init & enc & -> & Hload)].
    + now rewrite Hrun.
    + inversion Hc; subst c. now exists [], b.
    + now exists (b :: init), enc.
Qed.

Lemma for_encodings_tries_one b encs last_error :
  snd (for_encodings load_dotenv env_path (b :: encs) last_error env) <> [].
Proof.
  simpl. destruct (load_dotenv env_path b env) as [env1|ex]; [discriminate |].
  destruct (is_UnicodeDecodeError ex); [| discriminate].
  now destruct (for_encodings load_dotenv env_path encs (Some ex) env).
Qed.

End LoaderResults.

(** X1. When the loader returns, the environment it leaves is the one the
    last call of [load_dotenv] produced: that call loaded the file, every
    call before it raised a decode error, and the loader itself changed
    nothing. *)
Theorem loader_returns_what_load_dotenv_loaded
    (load_dotenv : dotenv) (env_path : Path) (env env' : environ) :
  fst (load_env_with_fallbacks load_dotenv env_path env) = Returned env' ->
  exists before encoding after,
    encodings = before ++ encoding :: after
    /\ snd (load_env_with_fallbacks load_dotenv env_path env) = before ++ [encoding]
    /\ load_dotenv env_path encoding env = Loaded env'
    /\ forall e, In e before -> decode_error load_dotenv env_path env e.
Proof.
  intros H. unfold load_env_with_fallbacks in *.
  now apply for_encodings_returned.
Qed.

Lemma loader_returns_what_load_dotenv_loaded_witness :
  exists before encoding after,
    encodings = before ++ encoding :: after
    /\ snd (load_env_with_fallbacks (Scenario.utf16_file Scenario.complete)
              Scenario.repo_env ∅) = before ++ [encoding]
    /\ Scenario.utf16_file Scenario.complete Scenario.repo_env encoding ∅
       = Loaded (∅ ∪ Scenario.complete)
    /\ forall e, In e before ->
         decode_error (Scenario.utf16_file Scenario.complete)
           Scenario.repo_env ∅ e.
Proof.
  apply (loader_returns_what_load_dotenv_loaded
           (Scenario.utf16_file Scenario.complete) Scenario.repo_env ∅
           (∅ ∪ Scenario.complete)).
  reflexivity.
Defined.

(** X2. The descriptive error of the loader is chained ([raise ... from])
    to the decode error of the last encoding tried, utf-16-be: the errors
    of the four attempts before it are dropped. *)
Theorem unreadable_is_chained_to_the_last_attempt
    (load_dotenv : dotenv) (env_path : Path) (env : environ)
    (e c : exception) :
  fst (load_env_with_fallbacks load_dotenv env_path env) = Raised e (Some c) ->
  e = unreadable env_path
  /\ load_dotenv env_path (Some "utf-16-be") env = LoadRaises c
  /\ cls c = UnicodeDecodeError.
Proof.
  intros H. unfold load_env_with_fallbacks in H.
  pose proof (for_encodings_chained _ _ _ _ _ _ _ H) as [He Hall];
    [discriminate |].
  split; [exact He |].
  apply for_encodings_cause in H as [[Hnil _] | (init & enc & Heq & Hload)];
    [discriminate |].
  change encodings
    with ([None; Some "utf-8-sig"; Some "utf-16"; Some "utf-16-le"]
          ++ [Some "utf-16-be"]) in Heq.
  apply app_inj_tail in Heq as [_ <-].
  split; [exact Hload |].
  destruct (Hall (Some "utf-16-be")) as (ex & Hex & Hcls).
  { do 4 right. now left. }
  congruence.
Qed.

Lemma unreadable_is_chained_to_the_last_attempt_witness :
  Scenario.undecodable Scenario.repo_env (Some "utf-16-be") ∅
  = LoadRaises (Scenario.truncated_data "utf-16-be").
Proof.
  refine (proj1 (proj2
    (unreadable_is_chained_to_the_last_attempt Scenario.undecodable
       Scenario.repo_env ∅ (unreadable Scenario.repo_env)
       (Scenario.truncated_data "utf-16-be") _))).
  reflexivity.
Defined.

(** X3. An exception of [load_dotenv] that is not a decode error is not
    caught: the loader stops at that attempt, tries no further encoding
    and raises the exception itself, unchained and unchanged. *)
Theorem loader_lets_other_errors_through
    (load_dotenv : dotenv) (env_path : Path) (env : environ)
    (before after : list (option string)) (encoding : option string)
    (ex : exception) :
  encodings = before ++ encoding :: after ->
  (forall e, In e before -> decode_error load_dotenv env_path env e) ->
  load_dotenv env_path encoding env = LoadRaises ex ->
  cls ex <> UnicodeDecodeError ->
  load_env_with_fallbacks load_dotenv env_path env
  = (Raised ex None, before ++ [encoding]).
Proof.
  intros Heq Hb Hl Hne. unfold load_env_with_fallbacks. rewrite Heq.
  now apply for_encodings_first_other.
Qed.

Lemma loader_lets_other_errors_through_witness :
  load_env_with_fallbacks Scenario.bomless Scenario.repo_env ∅
  = (Raised Scenario.no_byte_order_mark None,
     [None; Some "utf-8-sig"] ++ [Some "utf-16"]).
Proof.
  apply (loader_lets_other_errors_through Scenario.bomless Scenario.repo_env ∅
           [None; Some "utf-8-sig"] [Some "utf-16-le"; Some "utf-16-be"]
           (Some "utf-16") Scenario.no_byte_order_mark).
  - reflexivity.
  - intros e [<- | [<- | []]]; exists (Scenario.invalid_start_byte "0x80");
      split; reflexivity.
  - reflexivity.
  - discriminate.
Defined.

(** X4. Whatever the file, [load_dotenv] is called at least once and at
    most five times, and never twice with the same encoding. *)
Theorem loader_attempts_are_bounded
    (load_dotenv : dotenv) (env_path : Path) (env : environ) :
  let tried := snd (load_env_with_fallbacks load_dotenv env_path env) in
  1 <= length tried <= 5 /\ NoDup tried.
Proof.
  intros tried. subst tried. unfold load_env_with_fallbacks.
  destruct (for_encodings_tried load_dotenv env_path env encodings None)
    as [rest Hrest].
  pose proof (for_encodings_tries_one load_dotenv env_path env None
                (List.tl encodings) None) as Hne.
  change (None :: List.tl encodings) with encodings in Hne.
  assert (Hlen : length encodings = 5) by reflexivity.
  assert (Hnd : NoDup encodings).
  { apply (bool_decide_unpack _). reflexivity. }
  rewrite Hrest in Hlen, Hnd. rewrite length_app in Hlen.
  apply NoDup_app in Hnd as [Hnd _].
  split; [| exact Hnd].
  destruct (snd (for_encodings load_dotenv env_path encodings None env));
    [congruence | simpl in *; lia].
Qed.

(** ** The start-up code, read backwards from its result *)

Lemma configure_complete load_dotenv env_file required env env' :
  fst (load_env_with_fallbacks load_dotenv env_file env) = Returned env' ->
  (forall name, In name required -> is_set env' name) ->
  configure load_dotenv env_file required env = Returned env'.
Proof.
  intros Hl Hset. unfold configure. rewrite Hl.
  destruct (missing_vars required env') as [|m missing] eqn:Hm; [reflexivity |].
  assert (Hin : In m (missing_vars required env')) by (rewrite Hm; now left).
  apply missing_vars_spec in Hin as [Hreq Hnot].
  apply not_set_spec in Hnot. destruct (Hnot (Hset m Hreq)).
Qed.

(** X5. The start-up code of a script falls through exactly when the
    loader returned and every required variable is then set to a non-empty
    value; the environment the script goes on with is the loader's. *)
Theorem start_up_succeeds_iff_configuration_is_complete
    (load_dotenv : dotenv) (env_file : Path) (ep : entry_point)
    (env env' : environ) :
  configure load_dotenv env_file (EntryPoint.required_vars ep) env = Returned env'
  <-> fst (load_env_with_fallbacks load_dotenv env_file env) = Returned env'
      /\ forall name, In name (EntryPoint.required_vars ep) ->
           exists v, env' !! name = Some v /\ v <> "".
Proof.
  split.
  - apply configure_returned.
  - intros [Hl Hset]. now apply configure_complete.
Qed.

(** X6. The chat client asks for everything the provisioner asks for: a
    configuration the chat client starts with also starts the provisioner,
    with the same environment. *)
Theorem chat_client_configuration_suits_the_provisioner
    (load_dotenv : dotenv) (env_file : Path) (env env' : environ) :
  configure load_dotenv env_file ChatClient.required_vars env = Returned env' ->
  configure load_dotenv env_file Provisioner.required_vars env = Returned env'.
Proof.
  intros H. apply configure_returned in H as [Hl Hset].
  apply configure_complete; [exact Hl |].
  intros name [<- | [<- | []]]; apply Hset; simpl; auto.
Qed.

Lemma chat_client_configuration_suits_the_provisioner_witness :
  configure (Scenario.readable Scenario.complete) Scenario.repo_env
    Provisioner.required_vars ∅
  = Returned (∅ ∪ Scenario.complete).
Proof.
  apply (chat_client_configuration_suits_the_provisioner
           (Scenario.readable Scenario.complete) Scenario.repo_env ∅).
  reflexivity.
Defined.

(** ** The provisioner, whatever the service does *)

(** After a valid configuration and a read of the file, the script reaches
    its call: the two [os.environ[...]] lookups cannot fail. *)
Lemma provisioner_reaches_the_call load_dotenv env_file create_version env
    env' data :
  configure load_dotenv env_file Provisioner.required_vars env = Returned env' ->
  exists agent_name,
    env' !! "AGENT_NAME" = Some agent_name /\ agent_name <> "" /\
    Provisioner.main load_dotenv env_file (Provisioner.Content data)
      create_version env
    = let model := getenv_default env' "MODEL_NAME" "gpt-4.1" in
      let call := CreateVersion agent_name model (Py.strip data) in
      match create_version agent_name model (Py.strip data) with
      | Provisioner.CreateRaises ex =>
          {| Provisioner.ended := Uncaught ex; Provisioner.stdout := [];
             Provisioner.calls := [call] |}
      | Provisioner.Created agent =>
          {| Provisioner.ended := Exit 0;
             Provisioner.stdout := [print_line (Provisioner.created_line agent)];
             Provisioner.calls := [call] |}
      end.
Proof.
  intros Hc.
  destruct (configure_returned _ _ _ _ _ Hc) as [_ Hset].
  destruct (Hset "AGENT_NAME") as (agent_name & Hname & Hne); [right; now left |].
  destruct (Hset "AZURE_AI_PROJECT_ENDPOINT") as (endpoint & Hend & _); [now left |].
  exists agent_name. split; [exact Hname |]. split; [exact Hne |].
  unfold Provisioner.main. now rewrite Hc, Hend, Hname.
Qed.

(** X7. The provisioner calls the service exactly when its configuration is
    valid and the instruction file could be read, and then exactly once;
    otherwise it makes no call at all. It prints only when it ends
    normally. *)
Theorem provisioner_calls_the_service_once_or_not_at_all
    (load_dotenv : dotenv) (env_file : Path)
    (read_prompt : Provisioner.read_outcome)
    (create_version : string -> string -> string -> Provisioner.create_outcome)
    (env : environ) :
  let r := Provisioner.main load_dotenv env_file read_prompt create_version env in
  ((exists c, Provisioner.calls r = [c])
   <-> exists env' data,
         configure load_dotenv env_file Provisioner.required_vars env
         = Returned env'
         /\ read_prompt = Provisioner.Content data) /\
  (Provisioner.calls r = [] \/ exists c, Provisioner.calls r = [c]) /\
  (Provisioner.stdout r <> [] -> Provisioner.ended r = Exit 0).
Proof.
  intros r. subst r.
  destruct (configure load_dotenv env_file Provisioner.required_vars env)
    as [env'|e cause] eqn:Hc.
  - destruct read_prompt as [data|ex].
    + destruct (provisioner_reaches_the_call load_dotenv env_file create_version
                  env env' data Hc) as (agent_name & _ & _ & Hrun).
      simpl in Hrun. rewrite Hrun.
      destruct (create_version agent_name _ (Py.strip data)); simpl;
        (split; [split; intros _; eauto |]); (split; [eauto | congruence]).
    + unfold Provisioner.main. rewrite Hc. simpl. split; [split |].
      * intros [c Hcall]. discriminate.
      * intros (env1 & data & _ & Hd). discriminate.
      * split; [now left | congruence].
  - unfold Provisioner.main. rewrite Hc. simpl. split; [split |].
    + intros [c Hcall]. discriminate.
    + intros (env1 & data & Hd & _). discriminate.
    + split; [now left | congruence].
Qed.

(** X8. An error of the service is not retried and not reported by the
    script: after the one call the exception leaves the script as it is,
    and nothing has been printed. *)
Theorem provisioner_lets_the_service_error_through
    (load_dotenv : dotenv) (env_file : Path)
    (create_version : string -> string -> string -> Provisioner.create_outcome)
    (env env' : environ) (data agent_name : string) (ex : exception) :
  configure load_dotenv env_file Provisioner.required_vars env = Returned env' ->
  env' !! "AGENT_NAME" = Some agent_name ->
  create_version agent_name (getenv_default env' "MODEL_NAME" "gpt-4.1")
    (Py.strip data) = Provisioner.CreateRaises ex ->
  let r := Provisioner.main load_dotenv env_file (Provisioner.Content data)
             create_version env in
  Provisioner.ended r = Uncaught ex /\
  Provisioner.stdout r = [] /\
  Provisioner.calls r
  = [CreateVersion agent_name (getenv_default env' "MODEL_NAME" "gpt-4.1")
       (Py.strip data)].
Proof.
  intros Hc Hname Hcreate r. subst r.
  destruct (provisioner_reaches_the_call load_dotenv env_file create_version
              env env' data Hc) as (agent_name' & Hname' & _ & Hrun).
  assert (agent_name' = agent_name) by congruence. subst agent_name'.
  simpl in Hrun. rewrite Hcreate in Hrun. now rewrite Hrun.
Qed.

Lemma provisioner_lets_the_service_error_through_witness :
  Provisioner.ended
    (Provisioner.main (Scenario.readable Scenario.complete) Scenario.repo_env
       (Provisioner.Content " Guide hikers safely. ") Scenario.refusing ∅)
  = Uncaught Scenario.quota_exceeded.
Proof.
  refine (proj1
    (provisioner_lets_the_service_error_through
       (Scenario.readable Scenario.complete) Scenario.repo_env
       Scenario.refusing ∅
       (∅ ∪ Scenario.complete) " Guide hikers safely. " "trail-guide"
       Scenario.quota_exceeded _ _ _));
    reflexivity.
Defined.

(** ** The session as a whole *)

Lemma user_message_stripped (l : string) :
  Py.strip l <> "" ->
  ~ In (Py.lower (Py.strip l)) exit_words ->
  Transcript.user_message (Message "user" (Some (Py.strip l))) = true.
Proof.
  intros Hne Hin. unfold Transcript.user_message. cbn [role content].
  apply str_truthy_spec in Hne.
  rewrite Hne, strip_idempotent, !String.eqb_refl.
  destruct (Py.member (Py.lower (Py.strip l)) exit_words) eqn:Hm; [| reflexivity].
  apply member_spec in Hm. contradiction.
Qed.

(** What one iteration does to the session: nothing but output, or one
    call and the entries of one exchange, the second of them only if the
    call returned. *)
Lemma loop_body_effect requested t s :
  let f := loop_body requested t s in
  closed (flow_state f) = closed s /\
  exists am ac,
    messages (flow_state f) = messages s ++ am /\
    calls (flow_state f) = calls s ++ ac /\
    ((am = [] /\ ac = [])
     \/ exists u,
          Transcript.user_message u = true
          /\ ac = [ChatCompletion requested (messages s ++ [u])]
          /\ ((exists a s1,
                 Transcript.assistant_message a = true /\ am = [u; a]
                 /\ f = Continue s1)
              \/ (am = [u] /\ exists ex s1, f = Throw ex s1))).
Proof.
  intros f. subst f. unfold loop_body.
  destruct (typed t) as [l|ex].
  2:{ split; [reflexivity |]. exists [], []. rewrite !app_nil_r. auto. }
  destruct (Py.str_truthy (Py.strip l)) eqn:Hne; simpl negb; cbv iota.
  2:{ split; [reflexivity |]. exists [], []. rewrite !app_nil_r. auto. }
  destruct (Py.member (Py.lower (Py.strip l)) exit_words) eqn:Hm.
  { split; [reflexivity |]. exists [], []. rewrite !app_nil_r. auto. }
  assert (Hu : Transcript.user_message (Message "user" (Some (Py.strip l))) = true).
  { apply user_message_stripped; [now apply str_truthy_spec |].
    intros Hin. apply member_spec in Hin. congruence. }
  destruct (answered t) as [[|reply others]|ex].
  - split; [reflexivity |]. eexists [_], [_]. repeat split.
    right. eexists. split; [exact Hu |]. split; [reflexivity |].
    right. split; [reflexivity |]. eauto.
  - split; [reflexivity |]. eexists [_; _], [_]. simpl.
    split; [now rewrite <- app_assoc |]. split; [reflexivity |].
    right. eexists. split; [exact Hu |]. split; [reflexivity |].
    left. eexists _, _. split; [| split; reflexivity]. reflexivity.
  - split; [reflexivity |]. eexists [_], [_]. repeat split.
    right. eexists. split; [exact Hu |]. split; [reflexivity |].
    right. split; [reflexivity |]. eauto.
Qed.

Lemma asks_weaken requested before am final c :
  Transcript.asks requested (before ++ am) final c ->
  Transcript.asks requested before final c.
Proof.
  intros (more & u & rest & -> & Hu & ->).
  exists (am ++ more), u, rest. rewrite <- !app_assoc. auto.
Qed.

(** What the loop as a whole does to the session, by induction on the
    turns played. *)
Lemma while_true_effect requested script s :
  let e := while_true requested script s in
  closed (state_of e) = closed s /\
  exists am ac,
    messages (state_of e) = messages s ++ am /\
    calls (state_of e) = calls s ++ ac /\
    Transcript.exchanges (Transcript.threw e) am = true /\
    Forall (Transcript.asks requested (messages s) (messages s ++ am)) ac /\
    length am <= 2 * length ac <= length am + 1 /\
    (Transcript.threw e = false -> length am = 2 * length ac) /\
    length ac <= length script.
Proof.
  revert s. induction script as [|t rest IH]; intros s e; subst e.
  - simpl. split; [reflexivity |]. exists [], []. rewrite !app_nil_r.
    repeat split; simpl; auto.
  - simpl while_true.
    destruct (loop_body_effect requested t s)
      as (Hcl & am1 & ac1 & Hm1 & Hc1 & Hcase).
    destruct (loop_body requested t s) as [s1|s1|ex s1] eqn:Hbody;
      simpl in Hcl, Hm1, Hc1.
    + destruct (IH s1)
        as (Hcl2 & am2 & ac2 & Hm2 & Hc2 & Hshape & Hasks & Hlen & Heven & Hcount).
      split; [congruence |].
      exists (am1 ++ am2), (ac1 ++ ac2).
      split; [now rewrite Hm2, Hm1, app_assoc |].
      split; [now rewrite Hc2, Hc1, app_assoc |].
      assert (Hrest : Forall (Transcript.asks requested (messages s)
                                (messages s ++ am1 ++ am2)) ac2).
      { eapply Forall_impl; [exact Hasks |]. intros c Hc.
        rewrite Hm1 in Hc. rewrite app_assoc. now apply asks_weaken in Hc. }
      destruct Hcase
        as [[-> ->] | (u & Hu & -> & [(a & s1' & Ha & -> & _) | (-> & ex & s1' & Hf)])];
        [| | discriminate].
      * simpl. repeat split; auto; lia.
      * split; [simpl; now rewrite Hu, Ha |].
        split.
        { constructor; [| exact Hrest]. exists [], u, (a :: am2).
          split; [reflexivity |]. split; [exact Hu |].
          simpl. now rewrite <- app_assoc. }
        simpl. repeat split; try lia. intros H. specialize (Heven H). lia.
    + split; [exact Hcl |]. exists am1, ac1.
      destruct Hcase
        as [[-> ->] | (u & Hu & -> & [(a & s1' & Ha & -> & Hf) | (-> & ex & s1' & Hf)])];
        [| discriminate | discriminate].
      repeat split; simpl; auto; lia.
    + split; [exact Hcl |]. exists am1, ac1.
      destruct Hcase
        as [[-> ->] | (u & Hu & -> & [(a & s1' & Ha & -> & Hf) | (-> & ex' & s1' & Hf)])];
        [| discriminate |].
      * repeat split; simpl; auto; try lia.
      * split; [exact Hm1 |]. split; [exact Hc1 |].
        split; [simpl; now rewrite Hu |].
        split.
        { constructor; [| constructor]. exists [], u, [].
          split; [reflexivity |]. split; [exact Hu |].
          simpl. now rewrite app_nil_r. }
        simpl. repeat split; try lia; discriminate.
Qed.

(** X9. Over a whole session the transcript only grows, and by whole
    exchanges: what the loop adds to it is a sequence of pairs, a user
    entry (the stripped line: not empty, not an exit word) followed by an
    assistant entry with a string as content. Only a loop left by an
    exception may leave the last user entry unanswered. *)
Theorem transcript_grows_by_exchanges
    (requested : option string) (script : list turn) (s : session) :
  let e := while_true requested script s in
  exists added,
    messages (state_of e) = messages s ++ added
    /\ Transcript.exchanges (Transcript.threw e) added = true
    /\ (Transcript.threw e = false -> Nat.Even (length added)).
Proof.
  intros e.
  destruct (while_true_effect requested script s)
    as (_ & am & ac & Hm & _ & Hshape & _ & _ & Heven & _).
  exists am. split; [exact Hm |]. split; [exact Hshape |].
  intros H. exists (length ac). fold e in Heven. rewrite (Heven H). lia.
Qed.

(** X10. Every chat-completion call of a session is made for the one
    requested model, and its context is the transcript as it stood when
    the call was made: the opening transcript, the exchanges since, and
    last the user entry it asks about. That context is an initial part of
    the transcript the session ends with. *)
Theorem each_call_carries_the_transcript
    (requested : option string) (script : list turn) (s : session) :
  let e := while_true requested script s in
  exists made,
    calls (state_of e) = calls s ++ made
    /\ Forall (Transcript.asks requested (messages s) (messages (state_of e)))
         made.
Proof.
  intros e.
  destruct (while_true_effect requested script s)
    as (_ & am & ac & Hm & Hc & _ & Hasks & _).
  exists ac. split; [exact Hc |]. fold e in Hm. now rewrite Hm.
Qed.

(** X11. A session makes one chat-completion call for each exchange: the
    transcript grows by two entries for each call, less one if the last
    call raised, and no turn makes more than one call. *)
Theorem one_call_for_each_exchange
    (requested : option string) (script : list turn) (s : session) :
  let e := while_true requested script s in
  let entries := length (messages (state_of e)) - length (messages s) in
  let made := length (calls (state_of e)) - length (calls s) in
  entries <= 2 * made <= entries + 1 /\
  (Transcript.threw e = false -> entries = 2 * made) /\
  made <= length script.
Proof.
  intros e entries made.
  destruct (while_true_effect requested script s)
    as (_ & am & ac & Hm & Hc & _ & _ & Hlen & Heven & Hcount).
  fold e in Hm, Hc, Heven. subst entries made.
  rewrite Hm, Hc, !length_app.
  replace (length (messages s) + length am - length (messages s))
    with (length am) by lia.
  replace (length (calls s) + length ac - length (calls s))
    with (length ac) by lia.
  auto.
Qed.

(** The handlers and the [finally] clause touch neither the transcript nor
    the service. *)
Lemma chat_loop_frame requested script s :
  messages (final (chat_loop requested script s))
  = messages (state_of (while_true requested script s))
  /\ calls (final (chat_loop requested script s))
     = calls (state_of (while_true requested script s)).
Proof.
  unfold chat_loop.
  destruct (while_true requested script s) as [s'|s'|ex s']; simpl; auto.
  destruct (is_KeyboardInterrupt ex); [simpl; auto |].
  destruct (is_Exception ex); [| simpl; auto].
  simpl. apply on_exception_frame.
Qed.

(** X12. Handling an exception or an interrupt adds nothing to the
    transcript and calls nothing: a failed call is not retried. The client
    is closed exactly when the session has ended, however it ended. *)
Theorem handlers_leave_transcript_and_service_alone
    (requested : option string) (script : list turn) (s : session) :
  closed s = false ->
  let r := chat_loop requested script s in
  messages (final r) = messages (state_of (while_true requested script s)) /\
  calls (final r) = calls (state_of (while_true requested script s)) /\
  (closed (final r) = true <-> ended r <> AwaitingInput).
Proof.
  intros Hopen r.
  destruct (chat_loop_frame requested script s) as [Hm Hc].
  split; [exact Hm |]. split; [exact Hc |].
  destruct (while_true_effect requested script s) as [Hcl _].
  subst r. unfold chat_loop.
  destruct (while_true requested script s) as [s'|s'|ex s']; simpl in *.
  - rewrite Hcl, Hopen. split; [discriminate | congruence].
  - split; [discriminate | reflexivity].
  - destruct (is_KeyboardInterrupt ex); [simpl; split; [discriminate | reflexivity] |].
    destruct (is_Exception ex); simpl; (split; [discriminate | reflexivity]).
Qed.

Lemma handlers_leave_transcript_and_service_alone_witness :
  let r := chat_loop (Some "gpt-4.1")
             [Turn (Line "hello") (ChatRaises Scenario.connection_error)]
             Scenario.started in
  length (calls (final r)) = 2 /\ closed (final r) = true.
Proof.
  destruct (handlers_leave_transcript_and_service_alone (Some "gpt-4.1")
              [Turn (Line "hello") (ChatRaises Scenario.connection_error)]
              Scenario.started eq_refl) as (_ & Hc & Hcl).
  split.
  - rewrite Hc. reflexivity.
  - apply Hcl. discriminate.
Defined.

Lemma break_prints_the_farewell requested t s s' :
  loop_body requested t s = Break s' -> s' = print farewell (write prompt s).
Proof.
  unfold loop_body. destruct (typed t) as [l|ex]; [| discriminate].
  destruct (negb (Py.str_truthy (Py.strip l))); [discriminate |].
  destruct (Py.member (Py.lower (Py.strip l)) exit_words).
  - intros H. now inversion H.
  - destruct (answered t) as [[|reply others]|ex]; discriminate.
Qed.

(** X13. The loop is left by [break] only on an exit word: the stripped
    line, in lower case, is "exit", "quit" or "q". A line that merely
    holds such a word is sent to the model like any other. *)
Theorem loop_breaks_only_on_an_exit_word
    (requested : option string) (t : turn) (s s' : session) :
  loop_body requested t s = Break s'
  <-> (exists l, typed t = Line l /\ In (Py.lower (Py.strip l)) exit_words)
      /\ s' = print farewell (write prompt s).
Proof.
  split.
  - unfold loop_body. destruct (typed t) as [l|ex]; [| discriminate].
    destruct (negb (Py.str_truthy (Py.strip l))); [discriminate |].
    destruct (Py.member (Py.lower (Py.strip l)) exit_words) eqn:Hm.
    + intros H. inversion H. split; [| reflexivity].
      exists l. split; [reflexivity | now apply member_spec].
    + destruct (answered t) as [[|reply others]|ex]; discriminate.
  - intros [(l & Ht & Hin) ->]. now apply (loop_body_exit requested t s l).
Qed.

Example exit_between_no_break_spaces :
  loop_body (Some "gpt-4.1")
    (Turn (Line (Scenario.no_break_space +:+ "Exit" +:+ Scenario.no_break_space))
       Scenario.silent)
    Scenario.started
  = Break (print farewell (write prompt Scenario.started)).
Proof. reflexivity. Qed.

Example exit_inside_a_sentence :
  exists s',
    loop_body (Some "gpt-4.1")
      (Turn (Line "exit the valley by noon?") (Scenario.says "Yes."))
      Scenario.started
    = Continue s'.
Proof. eexists. reflexivity. Qed.

Lemma while_true_broke requested script s s' :
  while_true requested script s = Broke s' ->
  exists s0, s' = print farewell s0.
Proof.
  revert s. induction script as [|t rest IH]; intros s; simpl; [discriminate |].
  destruct (loop_body requested t s) as [s1|s1|ex s1] eqn:Hbody.
  - apply IH.
  - intros H. inversion H; subst s1.
    apply break_prints_the_farewell in Hbody. eauto.
  - discriminate.
Qed.

(** X14. A session ends with status 0 in two ways only, an exit word or an
    interrupt, and in both the last thing printed is a line that ends in
    "Goodbye!" and the client has been closed. Status 1 is the end of a
    loop left by any other exception. *)
Theorem status_zero_means_farewell
    (requested : option string) (script : list turn) (s : session) :
  let r := chat_loop requested script s in
  let e := while_true requested script s in
  (ended r = Exit 0
   <-> (exists s', e = Broke s')
       \/ (exists ex s', e = Threw ex s' /\ cls ex = KeyboardInterrupt)) /\
  (ended r = Exit 1
   <-> exists ex s', e = Threw ex s' /\ cls ex <> KeyboardInterrupt) /\
  (ended r = Exit 0 ->
   closed (final r) = true
   /\ exists a, last (stdout (final r)) = Some (print_line (a +:+ "Goodbye!"))).
Proof.
  intros r e. subst r e. unfold chat_loop.
  destruct (while_true requested script s) as [s'|s'|ex s'] eqn:Hloop.
  - simpl. repeat split; try discriminate.
    + intros [[s0 H] | (ex & s0 & H & _)]; discriminate.
    + intros (ex & s0 & H & _). discriminate.
  - simpl. split; [| split].
    + split; [eauto | reflexivity].
    + split; [discriminate | intros (ex & s0 & H & _); discriminate].
    + intros _. split; [reflexivity |].
      apply while_true_broke in Hloop as [s0 ->].
      exists (Py.nl +:+ "Ending session. "). simpl. now rewrite last_snoc.
  - unfold is_KeyboardInterrupt, is_Exception.
    destruct (cls ex) eqn:Hcls; simpl.
    + split; [| split].
      * split; [intros _; right; eauto | reflexivity].
      * split; [discriminate |].
        intros (ex' & s0 & H & Hne). inversion H; subst. congruence.
      * intros _. split; [reflexivity |].
        exists (Py.nl +:+ Py.nl +:+ "Session interrupted. ").
        now rewrite last_snoc.
    + split; [| split]; [| | discriminate].
      * split; [discriminate |].
        intros [[s0 H] | (ex' & s0 & H & Hk)]; [discriminate |].
        inversion H; subst. congruence.
      * split; [| reflexivity]. intros _. exists ex, s'. split; congruence.
    + split; [| split]; [| | discriminate].
      * split; [discriminate |].
        intros [[s0 H] | (ex' & s0 & H & Hk)]; [discriminate |].
        inversion H; subst. congruence.
      * split; [| reflexivity]. intros _. exists ex, s'. split; congruence.
    + split; [| split]; [| | discriminate].
      * split; [discriminate |].
        intros [[s0 H] | (ex' & s0 & H & Hk)]; [discriminate |].
        inversion H; subst. congruence.
      * split; [| reflexivity]. intros _. exists ex, s'. split; congruence.
Qed.

(** X15. A response without choices is an error like any other: indexing
    it raises [IndexError], the session ends with status 1 and prints
    "Error: list index out of range", and the user's entry stays in the
    transcript without an answer. *)
Theorem response_without_choices_ends_the_session
    (requested : option string) (t : turn) (rest : list turn)
    (s : session) (l : string) :
  typed t = Line l ->
  Py.strip l <> "" ->
  ~ In (Py.lower (Py.strip l)) exit_words ->
  answered t = Response [] ->
  let r := chat_loop requested (t :: rest) s in
  ended r = Exit 1 /\
  messages (final r) = messages s ++ [Message "user" (Some (Py.strip l))] /\
  calls (final r)
  = calls s
    ++ [ChatCompletion requested
          (messages s ++ [Message "user" (Some (Py.strip l))])] /\
  stdout (final r)
  = stdout s
    ++ [prompt; print_line (Py.nl +:+ "Error: " +:+ "list index out of range")].
Proof.
  intros Ht Hne Hin Ha r. subst r. unfold chat_loop. simpl while_true.
  rewrite (loop_body_normal requested t s l Ht Hne Hin), Ha.
  simpl. repeat split. now rewrite <- app_assoc.
Qed.

Lemma response_without_choices_ends_the_session_witness :
  ended (chat_loop (Some "gpt-4.1")
           [Turn (Line "hello") (Response [])] Scenario.started)
  = Exit 1.
Proof.
  refine (proj1
    (response_without_choices_ends_the_session (Some "gpt-4.1")
       (Turn (Line "hello") (Response [])) [] Scenario.started "hello"
       _ _ _ _)).
  - reflexivity.
  - vm_compute. discriminate.
  - vm_compute. intuition discriminate.
  - reflexivity.
Defined.

(** X16. The model requested is either the definition's or a non-empty
    value of one of the three override variables: an override that is set
    to the empty string never reaches the service. *)
Theorem requested_model_is_an_override_or_the_definition
    (env : environ) (d : definition) :
  model_name env d = model d
  \/ exists name v,
       In name ["MODEL_DEPLOYMENT"; "AZURE_OPENAI_DEPLOYMENT"; "MODEL_NAME"]
       /\ env !! name = Some v /\ v <> ""
       /\ model_name env d = Some v.
Proof.
  unfold model_name, Py.py_or.
  destruct (Py.truthy (getenv env "MODEL_DEPLOYMENT")) eqn:HA.
  { apply truthy_is_set in HA as (v & Hv & Hne). right.
    exists "MODEL_DEPLOYMENT", v. unfold getenv. rewrite Hv. simpl; auto. }
  destruct (Py.truthy (getenv env "AZURE_OPENAI_DEPLOYMENT")) eqn:HB.
  { apply truthy_is_set in HB as (v & Hv & Hne). right.
    exists "AZURE_OPENAI_DEPLOYMENT", v. unfold getenv. rewrite Hv. simpl; auto. }
  destruct (Py.truthy (getenv env "MODEL_NAME")) eqn:HC.
  { apply truthy_is_set in HC as (v & Hv & Hne). right.
    exists "MODEL_NAME", v. unfold getenv. rewrite Hv. simpl; auto 6. }
  now left.
Qed.

(** ** The chat client from its first line *)

Lemma opening_effect agent_name version d requested s :
  messages (opening agent_name version d requested s)
  = messages s ++ [Message "system" (instructions d)]
  /\ calls (opening agent_name version d requested s) = calls s
  /\ closed (opening agent_name version d requested s) = closed s
  /\ exists printed,
       stdout (opening agent_name version d requested s) = stdout s ++ printed
       /\ In (print_line ("Model: " +:+ Py.format requested)) printed.
Proof.
  repeat split. eexists. split.
  - unfold opening, banner. simpl. rewrite <- !app_assoc. reflexivity.
  - simpl. auto.
Qed.

Lemma chat_loop_stdout requested script s :
  exists more, stdout (final (chat_loop requested script s)) = stdout s ++ more.
Proof.
  destruct (while_true_stdout requested script s) as [more Hmore].
  unfold chat_loop.
  destruct (while_true requested script s) as [s'|s'|ex s']; simpl in *.
  - eauto.
  - eauto.
  - destruct (is_KeyboardInterrupt ex).
    + simpl. rewrite Hmore, <- app_assoc. eauto.
    + destruct (is_Exception ex); simpl; [| eauto].
      rewrite on_exception_stdout, Hmore, <- app_assoc. eauto.
Qed.

Lemma exchanges_open b l :
  Transcript.exchanges b l = true -> Transcript.exchanges true l = true.
Proof.
  enough (H : (Transcript.exchanges b l = true
               -> Transcript.exchanges true l = true)
              /\ forall x, Transcript.exchanges b (x :: l) = true
                           -> Transcript.exchanges true (x :: l) = true)
    by apply H.
  induction l as [|y l [IH1 IH2]].
  - split; [reflexivity |]. intros x. simpl.
    intros H. apply andb_prop in H as [_ H]. exact H.
  - split; [apply IH2 |]. intros x. simpl.
    intros H. apply andb_prop in H as [H1 H2]. rewrite H1. simpl.
    now apply IH1.
Qed.

(** After a valid configuration the three [os.environ] and [os.getenv]
    lookups of [interact_with_agent] find their variables. *)
Lemma main_reaches_the_service load_dotenv env_file get_agent script env env' :
  configure load_dotenv env_file required_vars env = Returned env' ->
  exists agent_name endpoint azure_endpoint,
    env' !! "AGENT_NAME" = Some agent_name /\ agent_name <> ""
    /\ env' !! "AZURE_AI_PROJECT_ENDPOINT" = Some endpoint
    /\ env' !! "AZURE_OPENAI_ENDPOINT" = Some azure_endpoint
    /\ getenv_default env' "AGENT_NAME" "trail-guide" = agent_name
    /\ main load_dotenv env_file get_agent script env
       = interact_with_agent get_agent script env'.
Proof.
  intros Hc. destruct (configure_returned _ _ _ _ _ Hc) as [_ Hset].
  destruct (Hset "AGENT_NAME") as (agent_name & Hname & Hne); [simpl; auto |].
  destruct (Hset "AZURE_AI_PROJECT_ENDPOINT") as (endpoint & Hend & _);
    [simpl; auto |].
  destruct (Hset "AZURE_OPENAI_ENDPOINT") as (azure & Haz & _); [simpl; auto |].
  exists agent_name, endpoint, azure. repeat split; auto.
  - unfold getenv_default. now rewrite Hname.
  - unfold main. now rewrite Hc.
Qed.

(** X17. Once its configuration is valid, the first thing the chat client
    asks the service is the agent named by [AGENT_NAME]: the fallback name
    "trail-guide" of the lookup is never used. The agent is fetched once;
    every later call is a chat completion. *)
Theorem the_configured_agent_is_fetched_first
    (load_dotenv : dotenv) (env_file : Path)
    (get_agent : string -> get_outcome) (script : list turn)
    (env env' : environ) :
  configure load_dotenv env_file required_vars env = Returned env' ->
  exists agent_name made,
    env' !! "AGENT_NAME" = Some agent_name /\ agent_name <> "" /\
    calls (final (main load_dotenv env_file get_agent script env))
    = GetAgent agent_name :: made /\
    Forall (fun c => exists m context, c = ChatCompletion m context) made.
Proof.
  intros Hc.
  destruct (main_reaches_the_service load_dotenv env_file get_agent script
              env env' Hc)
    as (agent_name & endpoint & azure & Hname & Hne & Hend & Haz & Hdef & Hmain).
  exists agent_name. rewrite Hmain. unfold interact_with_agent.
  rewrite Hend, Hdef.
  destruct (get_agent agent_name) as [version d|ex].
  - rewrite Haz.
    destruct (chat_loop_frame (model_name env' d) script
                (opening agent_name version d (model_name env' d)
                   (call (GetAgent agent_name) fresh))) as [_ Hcalls].
    destruct (while_true_effect (model_name env' d) script
                (opening agent_name version d (model_name env' d)
                   (call (GetAgent agent_name) fresh)))
      as (_ & am & ac & _ & Hc2 & _ & Hasks & _).
    exists ac. split; [exact Hname |]. split; [exact Hne |].
    split; [now rewrite Hcalls, Hc2 |].
    eapply Forall_impl; [exact Hasks |].
    intros c (more & u & rest & -> & _). eauto.
  - exists []. simpl. auto.
Qed.

Lemma the_configured_agent_is_fetched_first_witness :
  exists agent_name made,
    (∅ ∪ Scenario.complete : environ) !! "AGENT_NAME" = Some agent_name
    /\ agent_name <> ""
    /\ calls (final (main (Scenario.readable Scenario.complete)
                       Scenario.repo_env Scenario.service
                       [Turn (Line "hello") (Scenario.says "hi")] ∅))
       = GetAgent agent_name :: made
    /\ Forall (fun c => exists m context, c = ChatCompletion m context) made.
Proof.
  apply (the_configured_agent_is_fetched_first
           (Scenario.readable Scenario.complete) Scenario.repo_env
           Scenario.service [Turn (Line "hello") (Scenario.says "hi")] ∅).
  reflexivity.
Defined.

(** X18. The agent is fetched before the [try] statement: when the fetch
    raises, the exception leaves the script as it is, nothing has been
    printed, no session has started, and the client is not closed. The
    exit status is 1 unless the exception is an interrupt. *)
Theorem fetch_failure_leaves_the_client_open
    (load_dotenv : dotenv) (env_file : Path)
    (get_agent : string -> get_outcome) (script : list turn)
    (env env' : environ) (agent_name : string) (ex : exception) :
  configure load_dotenv env_file required_vars env = Returned env' ->
  env' !! "AGENT_NAME" = Some agent_name ->
  get_agent agent_name = GetRaises ex ->
  let r := main load_dotenv env_file get_agent script env in
  ended r = Uncaught ex /\
  (cls ex <> KeyboardInterrupt -> exit_status (ended r) = Some 1%Z) /\
  calls (final r) = [GetAgent agent_name] /\
  stdout (final r) = [] /\
  messages (final r) = [] /\
  closed (final r) = false.
Proof.
  intros Hc Hname Hget r. subst r.
  destruct (main_reaches_the_service load_dotenv env_file get_agent script
              env env' Hc)
    as (agent_name' & endpoint & azure & Hname' & _ & Hend & _ & Hdef & Hmain).
  assert (Heq : agent_name' = agent_name) by congruence. rewrite Heq in Hdef.
  rewrite Hmain. unfold interact_with_agent. rewrite Hend, Hdef, Hget.
  repeat split. simpl. unfold is_Exception. intros Hcls.
  now destruct (cls ex).
Qed.

Lemma fetch_failure_leaves_the_client_open_witness :
  closed (final (main (Scenario.readable Scenario.complete) Scenario.repo_env
                   Scenario.unavailable [] ∅))
  = false.
Proof.
  refine (proj2 (proj2 (proj2 (proj2 (proj2
    (fetch_failure_leaves_the_client_open
       (Scenario.readable Scenario.complete) Scenario.repo_env
       Scenario.unavailable [] ∅ (∅ ∪ Scenario.complete) "trail-guide"
       (Exc OtherException "(not_found) agent does not exist") _ _ _))))));
    reflexivity.
Defined.

Lemma chat_loop_prompts_first requested script s :
  exists more,
    stdout (final (chat_loop requested script s)) = stdout s ++ prompt :: more.
Proof.
  destruct (while_true_stdout requested script s) as [more Hmore].
  unfold chat_loop.
  destruct (while_true requested script s) as [s'|s'|ex s']; simpl in *.
  - eauto.
  - eauto.
  - destruct (is_KeyboardInterrupt ex).
    + simpl. rewrite Hmore, <- app_assoc. simpl. eauto.
    + destruct (is_Exception ex); simpl; [| eauto].
      rewrite on_exception_stdout, Hmore, <- app_assoc. simpl. eauto.
Qed.

(** X19. In every session the transcript starts with one system entry, the
    instructions of the fetched definition, and goes on with exchanges
    only. What the session prints starts with the banner, seven lines of
    which the fourth shows the model that has been resolved, and the first
    prompt follows the banner. *)
Theorem session_starts_with_the_instructions
    (load_dotenv : dotenv) (env_file : Path)
    (get_agent : string -> get_outcome) (script : list turn)
    (env env' : environ) (agent_name version : string) (d : definition) :
  configure load_dotenv env_file required_vars env = Returned env' ->
  env' !! "AGENT_NAME" = Some agent_name ->
  get_agent agent_name = Found version d ->
  let r := main load_dotenv env_file get_agent script env in
  (exists added,
     messages (final r) = Message "system" (instructions d) :: added
     /\ Transcript.exchanges true added = true) /\
  (exists more,
     stdout (final r)
     = map print_line
         [Py.nl +:+ rule;
          "Trail Guide Agent - Interactive Chat";
          "Agent: " +:+ agent_name +:+ " (version: " +:+ version +:+ ")";
          "Model: " +:+ Py.format (model_name env' d);
          rule;
          Py.nl
          +:+ "Type your questions or requests. Type 'exit' or 'quit' to end the session."
          +:+ Py.nl;
          "Started conversation." +:+ Py.nl]
       ++ prompt :: more).
Proof.
  intros Hc Hname Hget r. subst r.
  destruct (main_reaches_the_service load_dotenv env_file get_agent script
              env env' Hc)
    as (agent_name' & endpoint & azure & Hname' & _ & Hend & Haz & Hdef & Hmain).
  assert (Heq : agent_name' = agent_name) by congruence. rewrite Heq in Hdef.
  rewrite Hmain. unfold interact_with_agent. rewrite Hend, Hdef, Hget, Haz.
  set (s0 := opening agent_name version d (model_name env' d)
               (call (GetAgent agent_name) fresh)).
  split.
  - destruct (chat_loop_frame (model_name env' d) script s0) as [Hm _].
    destruct (while_true_effect (model_name env' d) script s0)
      as (_ & am & ac & Hm2 & _ & Hshape & _).
    exists am. split.
    + rewrite Hm, Hm2. reflexivity.
    + now apply exchanges_open in Hshape.
  - destruct (chat_loop_prompts_first (model_name env' d) script s0)
      as [more Hmore].
    exists more. rewrite Hmore. reflexivity.
Qed.

Lemma session_starts_with_the_instructions_witness :
  exists added,
    messages (final (main (Scenario.readable Scenario.complete)
                       Scenario.repo_env Scenario.service
                       [Turn (Line "hello") (Scenario.says "hi")] ∅))
    = Message "system" (Some "You are a trail guide.") :: added
    /\ Transcript.exchanges true added = true.
Proof.
  refine (proj1
    (session_starts_with_the_instructions
       (Scenario.readable Scenario.complete) Scenario.repo_env
       Scenario.service [Turn (Line "hello") (Scenario.says "hi")] ∅
       (∅ ∪ Scenario.complete) "trail-guide" "2" Scenario.trail_guide _ _ _));
    reflexivity.
Defined.

(** X20. When the service creates the version, the provisioner ends with
    status 0 after printing one line, which reports the identifier, the
    name and the version the service answered with. *)
Theorem provisioner_reports_the_created_version
    (load_dotenv : dotenv) (env_file : Path)
    (create_version : string -> string -> string -> Provisioner.create_outcome)
    (env env' : environ) (data agent_name : string)
    (agent : Provisioner.agent_version) :
  configure load_dotenv env_file Provisioner.required_vars env = Returned env' ->
  env' !! "AGENT_NAME" = Some agent_name ->
  create_version agent_name (getenv_default env' "MODEL_NAME" "gpt-4.1")
    (Py.strip data) = Provisioner.Created agent ->
  let r := Provisioner.main load_dotenv env_file (Provisioner.Content data)
             create_version env in
  Provisioner.ended r = Exit 0 /\
  exit_status (Provisioner.ended r) = Some 0%Z /\
  Provisioner.stdout r
  = [print_line
       ("Agent created (id: " +:+ Provisioner.id agent
        +:+ ", name: " +:+ Provisioner.name agent
        +:+ ", version: " +:+ Provisioner.version agent +:+ ")")].
Proof.
  intros Hc Hname Hcreate r. subst r.
  destruct (provisioner_reaches_the_call load_dotenv env_file create_version
              env env' data Hc) as (agent_name' & Hname' & _ & Hrun).
  assert (Heq : agent_name' = agent_name) by congruence. rewrite Heq in Hrun.
  simpl in Hrun. rewrite Hcreate in Hrun. now rewrite Hrun.
Qed.

Lemma provisioner_reports_the_created_version_witness :
  Provisioner.stdout
    (Provisioner.main (Scenario.readable Scenario.complete) Scenario.repo_env
       (Provisioner.Content " Guide hikers safely. ") Scenario.accepting ∅)
  = [print_line
       ("Agent created (id: " +:+ "trail-guide:1"
        +:+ ", name: " +:+ "trail-guide" +:+ ", version: " +:+ "1" +:+ ")")].
Proof.
  refine (proj2 (proj2
    (provisioner_reports_the_created_version
       (Scenario.readable Scenario.complete) Scenario.repo_env
       Scenario.accepting ∅ (∅ ∪ Scenario.complete)
       " Guide hikers safely. " "trail-guide"
       (Provisioner.AgentVersion "trail-guide:1" "trail-guide" "1") _ _ _)));
    reflexivity.
Defined.
